(** * Crucible: a shallow embedding of the rules engine

    The development follows the JavaScript sources of the system: the actor
    document ([CrucibleActor]), the weapon and spell data models
    ([CrucibleWeapon], [CrucibleSpell]), the canvas token
    ([CrucibleTokenObject]) and the maintenance utilities.  Numbers are
    integers ([Z]); the one place where the code draws a random real number
    uses rationals ([Q]).  JavaScript objects used as dictionaries are finite
    maps, JavaScript [Set]s are finite sets. *)

From Stdlib Require Import ZArith QArith Lia Ascii String.
From stdpp Require Import gmap strings list fin_maps.

Close Scope Q_scope.
Open Scope Z_scope.

(** ** Platform helpers *)

Module JS.

(** [Math.clamped(num, min, max)] of the host platform:
    [Math.min(max, Math.max(num, min))]. *)
Definition clamped (num lo hi : Z) : Z := Z.min hi (Z.max num lo).

(** [Math.sign]. *)
Definition sign (n : Z) : Z := Z.sgn n.

(** Truthiness of a number: [!n] holds exactly for zero. *)
Definition falsy (n : Z) : bool := n =? 0.

End JS.

(** ** Weapons: [CrucibleWeapon] (module/data/rune.mjs) *)

Module Weapon.

(** [static WEAPON_SLOTS = {EITHER: 0, MAINHAND: 1, OFFHAND: 2, TWOHAND: 3}] *)
Inductive WEAPON_SLOTS : Set := EITHER | MAINHAND | OFFHAND | TWOHAND.

Definition slot_value (s : WEAPON_SLOTS) : Z :=
  match s with EITHER => 0 | MAINHAND => 1 | OFFHAND => 2 | TWOHAND => 3 end.

(** The fields of a weapon category ([SYSTEM.WEAPON.CATEGORIES]) that the
    slot computation reads. *)
Record WeaponCategory : Set := {
  hands : Z;
  main : bool;
  off : bool
}.

(** A weapon as far as equipment slots are concerned:
    [this.config.category] and [this.properties] (a [Set] of strings). *)
Record CrucibleWeapon : Type := {
  category : WeaponCategory;
  properties : gset string
}.

(** [getAllowedEquipmentSlots()].  [unshift] puts an element in front of
    the array, [push] at its end. *)
Definition getAllowedEquipmentSlots (w : CrucibleWeapon) : list WEAPON_SLOTS :=
  if hands (category w) =? 2 then [TWOHAND]
  else
    let slots := [MAINHAND] in
    let slots := if off (category w) then (EITHER :: slots) ++ [OFFHAND] else slots in
    let slots := if bool_decide ("versatile"%string ∈ properties w)
                 then slots ++ [TWOHAND] else slots in
    slots.

End Weapon.

(** ** The actor document: [CrucibleActor] *)

Module Actor.

(** *** Equipment: [_prepareArmor] *)

(** An item as the armor resolution sees it.  Items made by
    [new itemCls(data, {parent})] were never stored and have no id. *)
Record CrucibleItem : Set := {
  item_id : option string;
  item_name : string;
  equipped : bool
}.

(** Reading property [0] of an item document: a document has no such
    property, the read yields [undefined]. *)
Definition item_index0 (i : CrucibleItem) : option CrucibleItem := None.

Section Armor.
(** [SYSTEM.ARMOR.UNARMORED_DATA] lives in the configuration tables;
    [_getUnarmoredArmor] wraps it in a fresh item. *)
Variable UNARMORED_DATA : CrucibleItem.

Definition _getUnarmoredArmor : CrucibleItem := UNARMORED_DATA.

Definition armor_warning (name : string) : string :=
  "Actor " +:+ name +:+ " has more than one equipped armor.".

(** [_prepareArmor(armorItems)]; the first component is what was sent to
    [ui.notifications.warn].  In the branch [armors.length > 1] the
    variable [armors] is overwritten by its own first element, so the
    final [armors[0]] reads property [0] of an item. *)
Definition _prepareArmor (name : string) (armorItems : list CrucibleItem)
  : list string * CrucibleItem :=
  let armors := List.filter equipped armorItems in
  if 1 <? Z.of_nat (length armors) then
    match head armors with
    | Some armors' =>
        ([armor_warning name],
         default _getUnarmoredArmor (item_index0 armors'))
    | None => ([armor_warning name], _getUnarmoredArmor)
    end
  else
    ([], default _getUnarmoredArmor (head armors)).
End Armor.

(** *** Talents and actions: [_prepareTalents], [_prepareActions] *)

(** Keys of [SYSTEM.SPELL.RUNES], [GESTURES] and [INFLECTIONS]
    (module/config/spellcraft.mjs). *)
Definition RUNES : gset string :=
  list_to_set ["courage"; "death"; "earth"; "flame"; "frost"; "kinesis";
               "life"; "lightning"; "mind"; "radiance"; "time"; "void"]%string.
Definition GESTURES : gset string :=
  list_to_set ["arrow"; "aspect"; "create"; "fan"; "influence"; "ray";
               "step"; "strike"; "touch"; "ward"]%string.
Definition INFLECTIONS : gset string :=
  list_to_set ["extend"; "negate"; "pull"; "push"]%string.

(** [TABLE[key]]: the component registered under [key], named by its key,
    or [undefined] ([None]) when the table has no such key. *)
Definition component (table : gset string) (key : string) : option string :=
  if bool_decide (key ∈ table) then Some key else None.

(** Truthiness of a string argument that may be missing. *)
Definition truthy (s : option string) : bool :=
  match s with
  | Some s => negb (String.eqb s "")
  | None => false
  end.

(** [this.grimoire]: three [Set]s of components. *)
Record Grimoire : Type := {
  runes : gset (option string);
  gestures : gset (option string);
  inflections : gset (option string)
}.

(** An action record; only the id matters for the registry. *)
Record CrucibleAction : Set := {
  action_id : string;
  action_name : string
}.

(** A talent item: [t.id], [t.system.rune], [t.system.gesture],
    [t.system.inflection] ([None] when unset; a set field may hold the
    empty string) and [t.actions]. *)
Record Talent : Set := {
  talent_id : string;
  talent_rune : option string;
  talent_gesture : option string;
  talent_inflection : option string;
  talent_actions : list CrucibleAction
}.

(** [this.system.points.talent] *)
Record TalentPoints : Set := {
  total : Z;
  spent : Z;
  available : Z
}.

(** What the talent pass writes: [talentIds], [grimoire], the talent
    points and the warnings raised, that is, the messages handed to
    [ui.notifications?.warn]. *)
Record TalentState : Type := {
  talentIds : gset string;
  grimoire : Grimoire;
  points : TalentPoints;
  warnings : list string
}.

Definition talent_warning (name : string) : string :=
  "Actor " +:+ name +:+
  " has more Talents unlocked than they have talent points available.".

(** The body of the loop [for ( const t of talent )].  The three tests
    [if ( t.system.rune )], [if ( t.system.gesture )] and
    [if ( t.system.inflection )] are tests of truthiness: an unset field and
    the empty string register nothing. *)
Definition prepareTalent (st : TalentState) (t : Talent) : TalentState :=
  let ids := {[ talent_id t ]} ∪ talentIds st in
  let pts := {| total := total (points st);
                spent := spent (points st) + 1;
                available := available (points st) |} in
  let g := grimoire st in
  let g :=
    if truthy (talent_rune t) then
      let rs := {[ component RUNES (default ""%string (talent_rune t)) ]} ∪ runes g in
      let gs := if bool_decide (size (gestures g) = 0%nat)
                then {[ component GESTURES "touch" ]} ∪ gestures g
                else gestures g in
      {| runes := rs; gestures := gs; inflections := inflections g |}
    else g in
  let g :=
    if truthy (talent_gesture t) then
      {| runes := runes g;
         gestures := {[ component GESTURES (default ""%string (talent_gesture t)) ]}
                     ∪ gestures g;
         inflections := inflections g |}
    else g in
  let g :=
    if truthy (talent_inflection t) then
      {| runes := runes g;
         gestures := gestures g;
         inflections := {[ component INFLECTIONS (default ""%string (talent_inflection t)) ]}
                        ∪ inflections g |}
    else g in
  {| talentIds := ids; grimoire := g; points := pts; warnings := warnings st |}.

(** [_prepareTalents({talent})]: [points0] is [this.system.points.talent]
    as the pass finds it. *)
Definition _prepareTalents (name : string) (points0 : TalentPoints)
    (talent : list Talent) : TalentState :=
  let st0 := {| talentIds := ∅;
                grimoire := {| runes := ∅; gestures := ∅; inflections := ∅ |};
                points := points0;
                warnings := [] |} in
  let st := fold_left prepareTalent talent st0 in
  let avail := total (points st) - spent (points st) in
  {| talentIds := talentIds st;
     grimoire := grimoire st;
     points := {| total := total (points st);
                  spent := spent (points st);
                  available := avail |};
     warnings := if avail <? 0 then warnings st ++ [talent_warning name]
                 else warnings st |}.

(** [SYSTEM.ACTION.DEFAULT_ACTIONS] (module/config/action.mjs), by id and
    name. *)
Definition DEFAULT_ACTIONS : list CrucibleAction :=
  [ {| action_id := "cast"; action_name := "Cast Spell" |};
    {| action_id := "move"; action_name := "Move" |};
    {| action_id := "defend"; action_name := "Defend" |};
    {| action_id := "delay"; action_name := "Delay" |};
    {| action_id := "disengagementStrike"; action_name := "Disengagement Strike" |};
    {| action_id := "recover"; action_name := "Recover" |};
    {| action_id := "refocus"; action_name := "Recover Focus" |};
    {| action_id := "reload"; action_name := "Reload Weapon" |};
    {| action_id := "strike"; action_name := "Strike" |} ].

Section Actions.
(** [a.prepareForActor(this)] belongs to the action class; the registry
    only stores what it returns. *)
Variable prepareForActor : CrucibleAction -> CrucibleAction.

(** The default-action loop body, with its two [continue] guards. *)
Definition addDefaultAction (g : Grimoire) (reload : bool)
    (actions : gmap string CrucibleAction) (a : CrucibleAction)
  : gmap string CrucibleAction :=
  if String.eqb (action_id a) "cast"
     && negb (negb (size (gestures g) =? 0)%nat && negb (size (runes g) =? 0)%nat)
  then actions
  else if String.eqb (action_id a) "reload" && negb reload then actions
  else <[ action_id a := prepareForActor a ]> actions.

Definition addTalentActions (actions : gmap string CrucibleAction) (t : Talent)
  : gmap string CrucibleAction :=
  fold_left (fun acts a => <[ action_id a := prepareForActor a ]> acts)
            (talent_actions t) actions.

(** [_prepareActions()]: [reload] is [this.equipment.weapons.reload]. *)
Definition _prepareActions (g : Grimoire) (reload : bool) (talent : list Talent)
  : gmap string CrucibleAction :=
  let actions := fold_left (addDefaultAction g reload) DEFAULT_ACTIONS ∅ in
  fold_left addTalentActions talent actions.

(** [prepareEmbeddedDocuments()] for an actor that is not an adversary:
    talents, then equipment, then actions; nothing in between looks at
    the talent warning. *)
Record Prepared : Type := {
  prep_talents : TalentState;
  prep_armor : CrucibleItem;
  prep_actions : gmap string CrucibleAction;
  prep_notifications : list string
}.

Definition prepareEmbeddedDocuments (UNARMORED_DATA : CrucibleItem)
    (name : string) (points0 : TalentPoints) (talent : list Talent)
    (armor : list CrucibleItem) (reload : bool) : Prepared :=
  let ts := _prepareTalents name points0 talent in
  let '(w, a) := _prepareArmor UNARMORED_DATA name armor in
  {| prep_talents := ts;
     prep_armor := a;
     prep_actions := _prepareActions (grimoire ts) reload talent;
     prep_notifications := warnings ts ++ w |}.
End Actions.

(** *** Defense testing: [testDefense] *)

(** [AttackRoll.RESULT_TYPES], the members [testDefense] returns. *)
Inductive RESULT_TYPES : Set :=
  HIT | DODGE | PARRY | BLOCK | DEFLECT | EFFECTIVE | RESIST.

(** Modelled from the spec: the declaration of [system.defenses] (the actor
    data model) is not among the sources.  [testDefense] reads [d.physical]
    as a number, the physical total, and every other entry through its
    [total]. *)
Record Defenses : Type := {
  physical : Z;
  defense_total : gmap string Z
}.

(** [testDefense(defenseType, rollTotal, dc)].  [u] is the value drawn by
    [twist.random()], a number in [[0, 1)]; reading [total] of a missing
    entry raises a [TypeError] ([None]); a missing [dc] is [undefined],
    and [rollTotal > undefined] is false. *)
Definition testDefense (d : Defenses) (u : Q) (defenseType : option string)
    (rollTotal : Z) (dc : option Z) : option RESULT_TYPES :=
  if bool_decide (defenseType = Some "physical"%string) then
    let dc := physical d in
    if dc <? rollTotal then Some HIT
    else
      let r := (u * inject_Z (physical d))%Q in
      dodge ← defense_total d !! "dodge"%string;
      if Qle_bool r (inject_Z dodge) then Some DODGE
      else
        parry_total ← defense_total d !! "parry"%string;
        let parry := dodge + parry_total in
        if Qle_bool r (inject_Z parry) then Some PARRY
        else
          block_total ← defense_total d !! "block"%string;
          let block := dodge + block_total in
          if Qle_bool r (inject_Z block) then Some BLOCK
          else Some DEFLECT
  else
    dc ← (if truthy defenseType
          then t ← defense_total d !! default ""%string defenseType; Some (Some t)
          else Some dc);
    match dc with
    | Some dc => if dc <? rollTotal then Some EFFECTIVE else Some RESIST
    | None => Some RESIST
    end.

(** *** Resource pools: [alterResources] *)

(** [this.system.resources[name]] *)
Record Resource : Set := {
  value : Z;
  max : Z
}.

(** The update key [`system.resources.${name}.value`]. *)
Definition resource_path (name : string) : string :=
  "system.resources." +:+ name +:+ ".value".

(** One turn of the loop over [Object.entries(changes)].  Reading a
    property of a missing resource raises a [TypeError] ([None]).  The
    locals [tookWounds] and [tookMadness] are written and never read. *)
Definition alterResource (r : gmap string Resource) (updates : gmap string Z)
    (change : string * Z) : option (gmap string Z) :=
  let '(resourceName, delta) := change in
  resource ← r !! resourceName;
  let uncapped := value resource + delta in
  let overflow := Z.min uncapped 0 in
  updates ←
    (if String.eqb resourceName "health" && negb (overflow =? 0) then
       wounds ← r !! "wounds"%string;
       Some (<[ resource_path "wounds" :=
                 JS.clamped (value wounds - overflow) 0 (max wounds) ]> updates)
     else Some updates);
  updates ←
    (if String.eqb resourceName "morale" && negb (overflow =? 0) then
       madness ← r !! "madness"%string;
       Some (<[ resource_path "madness" :=
                 JS.clamped (value madness - overflow) 0 (max madness) ]> updates)
     else Some updates);
  Some (<[ resource_path resourceName :=
            JS.clamped uncapped 0 (max resource) ]> updates).

(** [alterResources(changes, updates)]: the update object handed to
    [this.update]. *)
Fixpoint alterResources (r : gmap string Resource) (changes : list (string * Z))
    (updates : gmap string Z) : option (gmap string Z) :=
  match changes with
  | [] => Some updates
  | change :: changes =>
      updates ← alterResource r updates change;
      alterResources r changes updates
  end.

(** [this.update(updates)] as far as the resource values go: a pool named
    in the update object takes the value found there. *)
Definition update (r : gmap string Resource) (updates : gmap string Z)
  : gmap string Resource :=
  map_imap (fun name res =>
              Some {| value := default (value res) (updates !! resource_path name);
                      max := max res |}) r.

(** *** Active effects: [#isEffectExpired], [expireEffects] *)

(** [effect.duration]: [startRound] may be [null], which counts as 0 in
    the sum; [rounds] is [None] unless it is numeric. *)
Record EffectDuration : Set := {
  startRound : option Z;
  rounds : option Z
}.

Record ActiveEffect : Set := {
  effect_id : string;
  origin : option string;
  duration : EffectDuration
}.

(** [#isEffectExpired(effect, start)] for the actor [uuid], with
    [round = game.combat.round]. *)
Definition isEffectExpired (uuid : string) (round : Z) (effect : ActiveEffect)
    (start : bool) : bool :=
  match rounds (duration effect) with
  | None => false
  | Some rounds =>
      let isSelf := bool_decide (origin effect = Some uuid) in
      let remaining := (default 0 (startRound (duration effect)) + rounds) - round in
      if isSelf then remaining <=? 0
      else if start then remaining <? 0
      else remaining <=? 0
  end.

(** [expireEffects(start)]: the ids collected in [toDelete]. *)
Definition expireEffects (uuid : string) (round : Z) (effects : list ActiveEffect)
    (start : bool) : list string :=
  effect_id <$> List.filter (fun effect => isEffectExpired uuid round effect start) effects.

(** *** Ability purchases: [canPurchaseAbility] *)

(** [this.system.abilities[id]] *)
Record Ability : Set := {
  base : Z;
  increases : Z;
  ability_value : Z
}.

(** [this.points.ability] *)
Record AbilityPoints : Set := {
  pool : Z;
  ability_available : Z
}.

Record AbilityActor : Type := {
  level : Z;
  abilities : gmap string Ability;
  ability_points : AbilityPoints
}.

Definition isL0 (actor : AbilityActor) : bool := level actor =? 0.

(** [canPurchaseAbility(ability, delta)]; [None] is the [undefined] of the
    bare [return]. *)
Definition canPurchaseAbility (actor : AbilityActor) (ability : string) (delta : Z)
  : option bool :=
  let delta := JS.sign delta in
  let points := ability_points actor in
  match abilities actor !! ability with
  | None => None
  | Some a =>
      if JS.falsy delta then None
      else if isL0 actor then
        if (0 <? delta) && ((base a =? 3) || JS.falsy (pool points)) then Some false
        else if (delta <? 0) && (base a =? 0) then Some false
        else Some true
      else
        if (0 <? delta) && ((ability_value a =? 12) || JS.falsy (ability_available points))
        then Some false
        else if (delta <? 0) && (increases a =? 0) then Some false
        else Some true
  end.

End Actor.

(** ** Spells: [CrucibleSpell] (module/data/rune.mjs) *)

Module Spell.

(** [static COMPOSITION_STATES = {NONE: 0, COMPOSING: 1, COMPOSED: 2}] *)
Inductive COMPOSITION_STATES : Set := NONE | COMPOSING | COMPOSED.

Definition composition_value (c : COMPOSITION_STATES) : Z :=
  match c with NONE => 0 | COMPOSING => 1 | COMPOSED => 2 end.

(** An action cost: action points, focus points and an optional health
    cost. *)
Record ActionCost : Set := {
  action : Z;
  focus : Z;
  health : option Z
}.

Record Gesture : Set := {
  gesture_id : string;
  gesture_cost : ActionCost
}.

Record Inflection : Set := {
  inflection_id : string;
  inflection_cost : ActionCost
}.

(** The fields of a spell that cost preparation reads and writes. *)
Record CrucibleSpell : Set := {
  gesture : Gesture;
  inflection : option Inflection;
  composition : COMPOSITION_STATES;
  cost : ActionCost;
  _trueCost : option ActionCost
}.

Definition set_cost (spell : CrucibleSpell) (c : ActionCost) : CrucibleSpell :=
  {| gesture := gesture spell; inflection := inflection spell;
     composition := composition spell; cost := c;
     _trueCost := _trueCost spell |}.

Definition set_trueCost (spell : CrucibleSpell) (c : ActionCost) : CrucibleSpell :=
  {| gesture := gesture spell; inflection := inflection spell;
     composition := composition spell; cost := cost spell;
     _trueCost := Some c |}.

(** [#prepareCost(spell)]: a copy of the gesture's cost, plus the
    inflection's action and focus cost when there is an inflection. *)
Definition prepareCost (spell : CrucibleSpell) : ActionCost :=
  let cost := gesture_cost (gesture spell) in
  match inflection spell with
  | Some i =>
      {| action := action cost + action (inflection_cost i);
         focus := focus cost + focus (inflection_cost i);
         health := health cost |}
  | None => cost
  end.

(** [this.actor.system.status], the flags the gestures look at. *)
Record ActorStatus : Set := {
  rangedAttack : bool;
  arcaneArcher : bool;
  meleeAttack : bool;
  spellblade : bool
}.

Record SpellActor : Type := {
  talentIds : gset string;
  status : ActorStatus
}.

(** [#prepareGesture()], as far as the cost goes: the arrow and strike
    signatures take one action point off; the other gestures leave the
    cost alone. *)
Definition prepareGesture (actor : SpellActor) (spell : CrucibleSpell) : CrucibleSpell :=
  let t := talentIds actor in
  let s := status actor in
  let discount :=
    set_cost spell {| action := action (cost spell) - 1;
                      focus := focus (cost spell);
                      health := health (cost spell) |} in
  if String.eqb (gesture_id (gesture spell)) "arrow" then
    if bool_decide ("arcanearcher0000"%string ∈ t) && rangedAttack s && negb (arcaneArcher s)
    then discount else spell
  else if String.eqb (gesture_id (gesture spell)) "strike" then
    if bool_decide ("spellblade000000"%string ∈ t) && meleeAttack s && negb (spellblade s)
    then discount else spell
  else spell.

(** The blood magic step of [_prepareForActor]. *)
Definition bloodMagic (actor : SpellActor) (spell : CrucibleSpell) : CrucibleSpell :=
  if bool_decide ("bloodmagic000000"%string ∈ talentIds actor) then
    set_cost spell {| action := action (cost spell);
                      focus := 0;
                      health := Some (focus (cost spell) * 10) |}
  else spell.

(** The last step of [_prepareForActor]: remember the cost, then show
    zero action and focus unless the spell is composed. *)
Definition zeroCost (spell : CrucibleSpell) : CrucibleSpell :=
  let spell := set_trueCost spell (cost spell) in
  match composition spell with
  | COMPOSED => spell
  | _ => set_cost spell {| action := 0; focus := 0; health := health (cost spell) |}
  end.

Section PrepareForActor.
(** [super._prepareForActor()] is the action class's own preparation
    (tag callbacks and talent hooks); it runs first. *)
Variable super_prepareForActor : SpellActor -> CrucibleSpell -> CrucibleSpell.

(** [_prepareForActor()] *)
Definition _prepareForActor (actor : SpellActor) (spell : CrucibleSpell) : CrucibleSpell :=
  let spell := super_prepareForActor actor spell in
  let spell := prepareGesture actor spell in
  let spell := bloodMagic actor spell in
  zeroCost spell.
End PrepareForActor.

End Spell.

(** ** Maintenance utilities: [standardizeItemIds] *)

Module Utility.

(** A world item: its id and name. *)
Record Item : Set := {
  id : string;
  name : string
}.

(** [s.slice(0, 16)] *)
Definition slice16 (s : string) : string := String.substring 0 16 s.

Fixpoint zeros (n : nat) : string :=
  match n with
  | O => EmptyString
  | S n => String "0"%char (zeros n)
  end.

(** [s.padEnd(16, "0")] *)
Definition padEnd16 (s : string) : string :=
  s +:+ zeros (16 - String.length s).

(** What [standardizeItemIds] ends with: either the error it threw, or the
    two requests it sent, [Item.deleteDocuments(deletions)] and
    [Item.createDocuments(creations, {keepId: true})]. *)
Inductive Outcome : Set :=
| Thrown (message : string)
| Requested (deletions : list string) (creations : list Item).

Section Standardize.
(** [String.prototype.slugify] of the host, called with
    [{replacement: "", strict: true}]. *)
Variable slugify : string -> string.

Definition standardId (item : Item) : string :=
  padEnd16 (slice16 (slugify (name item))).

(** [game.items.has(id)] *)
Definition has (items : list Item) (i : string) : bool :=
  existsb (fun item => String.eqb (id item) i) items.

Definition conflict_message (standardId : string) : string :=
  "Standardized system ID " +:+ standardId +:+ " is already in use".

(** The loop [for ( const item of game.items )]; [world] is
    [game.items], which the loop does not change. *)
Fixpoint standardizeLoop (world items : list Item)
    (deletions : list string) (creations : list Item) : Outcome :=
  match items with
  | [] => Requested deletions creations
  | item :: items =>
      let standardId := standardId item in
      if String.eqb (id item) standardId
      then standardizeLoop world items deletions creations
      else if has world standardId then Thrown (conflict_message standardId)
      else standardizeLoop world items
             (deletions ++ [id item])
             (creations ++ [{| id := standardId; name := name item |}])
  end.

(** [standardizeItemIds()] *)
Definition standardizeItemIds (world : list Item) : Outcome :=
  standardizeLoop world world [] [].

(** The world items left once the outcome is in: a throw happens before
    any request, a deletion request removes the listed ids. *)
Definition survivors (world : list Item) (o : Outcome) : list Item :=
  match o with
  | Thrown _ => world
  | Requested deletions _ =>
      List.filter (fun item => negb (existsb (String.eqb (id item)) deletions)) world
  end.
End Standardize.

(** A model of the host's [slugify] on ASCII names, for the examples:
    letters are lowered, digits kept, everything else dropped. *)
Definition lower (c : ascii) : option ascii :=
  let n := nat_of_ascii c in
  if (65 <=? n)%nat && (n <=? 90)%nat then Some (ascii_of_nat (n + 32))
  else if ((97 <=? n)%nat && (n <=? 122)%nat) || ((48 <=? n)%nat && (n <=? 57)%nat)
  then Some c else None.

Fixpoint slugify_ascii (s : string) : string :=
  match s with
  | EmptyString => EmptyString
  | String c s =>
      match lower c with
      | Some c' => String c' (slugify_ascii s)
      | None => slugify_ascii s
      end
  end.

End Utility.

(** ** The canvas token: [CrucibleTokenObject] (module/canvas/token.mjs) *)

Module Token.

(** Tokens are named by numbers.  The canvas holds, for every token, its
    [engaged] set (a token without an entry has the empty set its field
    initializer gave it), the tokens that have an actor, and the calls
    [actor.updateFlanking(engaged)] made so far. *)
Record Canvas : Type := {
  engaged : gmap nat (gset nat);
  actors : gset nat;
  flanking : list (nat * gset nat)
}.

(** [t.engaged] *)
Definition eng (c : Canvas) (t : nat) : gset nat := engaged c !!! t.

Definition set_engaged (c : Canvas) (t : nat) (e : gset nat) : Canvas :=
  {| engaged := <[ t := e ]> (engaged c);
     actors := actors c;
     flanking := flanking c |}.

(** [t.actor.updateFlanking(t.engaged)] *)
Definition notify (c : Canvas) (t : nat) : Canvas :=
  {| engaged := engaged c;
     actors := actors c;
     flanking := flanking c ++ [(t, eng c t)] |}.

Definition hasActor (c : Canvas) (t : nat) : bool := bool_decide (t ∈ actors c).

(** The body of the first loop of [updateFlanking]. *)
Definition disengage (this : nat) (commit : bool) (enemies : gset nat)
    (c : Canvas) (token : nat) : Canvas :=
  if bool_decide (token ∈ enemies) then c
  else
    let c := set_engaged c this (eng c this ∖ {[ token ]}) in
    let c := set_engaged c token (eng c token ∖ {[ this ]}) in
    if commit && hasActor c token then notify c token else c.

(** The body of the second loop of [updateFlanking]. *)
Definition engage (this : nat) (commit : bool)
    (c : Canvas) (token : nat) : Canvas :=
  if bool_decide (token ∈ eng c this) then c
  else
    let c := set_engaged c this ({[ token ]} ∪ eng c this) in
    let c := set_engaged c token ({[ this ]} ∪ eng c token) in
    if commit && hasActor c token then notify c token else c.

(** [updateFlanking({commit, enemies})] on token [this]; [enemies] is the
    given set or the one [#computeEngagement] returned. *)
Definition updateFlanking (c : Canvas) (this : nat) (commit : bool)
    (enemies : gset nat) : Canvas :=
  let c := fold_left (disengage this commit enemies) (elements (eng c this)) c in
  let c := fold_left (engage this commit) (elements enemies) c in
  if commit && hasActor c this then notify c this else c.

(** [_draw()]: [this.engaged = this.#computeEngagement()], where [computed]
    is the set the engagement computation returned.  Only the field of the
    token drawn is written; the tokens of that set are not told. *)
Definition _draw (c : Canvas) (this : nat) (computed : gset nat) : Canvas :=
  set_engaged c this computed.

(** [_onUpdate]: [updateFlanking({commit})], whose [enemies] is the set the
    engagement computation returns, here [computed]. *)
Definition _onUpdate (c : Canvas) (this : nat) (commit : bool)
    (computed : gset nat) : Canvas :=
  updateFlanking c this commit computed.

(** [_onCreate]: [enemies] is the set [_draw] left in [this.engaged];
    the field is replaced by a new empty set before the update. *)
Definition _onCreate (c : Canvas) (this : nat) (commit : bool) : Canvas :=
  let enemies := eng c this in
  let c := set_engaged c this ∅ in
  updateFlanking c this commit enemies.

(** The loop of [_onDelete].  With [commit] the actor of every engaged
    token is called without a guard: a token without an actor raises a
    [TypeError] ([None]). *)
Fixpoint onDeleteLoop (this : nat) (commit : bool) (tokens : list nat)
    (c : Canvas) : option Canvas :=
  match tokens with
  | [] => Some c
  | token :: tokens =>
      let c := set_engaged c token (eng c token ∖ {[ this ]}) in
      if commit then
        if hasActor c token then onDeleteLoop this commit tokens (notify c token)
        else None
      else onDeleteLoop this commit tokens c
  end.

(** [_onDelete(options, userId)] *)
Definition _onDelete (c : Canvas) (this : nat) (commit : bool) : option Canvas :=
  c ← onDeleteLoop this commit (elements (eng c this)) c;
  Some (set_engaged c this ∅).

(** The canvas the loop of [_onDelete] leaves behind when it raises: the
    token without an actor has lost [this] already, the tokens after it
    were not reached, and [this.engaged.clear()] is never run.  [None]
    when the loop goes through. *)
Fixpoint onDeleteThrown (this : nat) (commit : bool) (tokens : list nat)
    (c : Canvas) : option Canvas :=
  match tokens with
  | [] => None
  | token :: tokens =>
      let c := set_engaged c token (eng c token ∖ {[ this ]}) in
      if commit then
        if hasActor c token then onDeleteThrown this commit tokens (notify c token)
        else Some c
      else onDeleteThrown this commit tokens c
  end.

(** Engagement is mirrored. *)
Definition symmetric (c : Canvas) : Prop :=
  forall a b : nat, b ∈ eng c a <-> a ∈ eng c b.

(** The canvas before any token was drawn. *)
Definition empty_canvas (actors : gset nat) : Canvas :=
  {| engaged := ∅; actors := actors; flanking := [] |}.

End Token.

(** ** The actor document, continued: purchases *)

Module Advancement.
Import Actor.

(** What a purchase method ends with: a bare [return], a warning sent to
    [ui.notifications.warn], or the object passed to [this.update], whose
    values are numbers or [null]. *)
Inductive Purchase : Set :=
| NoChange
| Refused (warning : string)
| Update (changes : list (string * option Z)).

(** The update key [`system.abilities.${ability}.${field}`]. *)
Definition ability_path (ability field : string) : string :=
  "system.abilities." +:+ ability +:+ "." +:+ field.

(** [purchaseAbility(ability, delta)].  The warning is the localization key
    handed to the notification. *)
Definition purchaseAbility (actor : AbilityActor) (ability : string) (delta : Z)
  : Purchase :=
  let delta := JS.sign delta in
  match abilities actor !! ability with
  | None => NoChange
  | Some a =>
      if JS.falsy delta then NoChange
      else
        match canPurchaseAbility actor ability delta with
        | Some true =>
            if isL0 actor
            then Update [(ability_path ability "base", Some (Z.max (base a + delta) 0))]
            else Update [(ability_path ability "increases", Some (increases a + delta))]
        | _ =>
            Refused ("WARNING.AbilityCannot" +:+
                     (if 0 <? delta then "Increase" else "Decrease"))
        end
  end.

(** [this.system.skills[id]]: the rank, the chosen specialization path
    ([None] when unset) and the cost of the next rank. *)
Record Skill : Set := {
  rank : Z;
  path : option string;
  cost : Z
}.

(** The actor as the skill purchases see it.  [ancestry] and [background]
    are [system.details.ancestry] and [.background]: [None] is [null],
    [Some n] an object whose [name] is [n]. *)
Record SkillActor : Type := {
  skills : gmap string Skill;
  ancestry : option (option string);
  background : option (option string);
  skill_available : Z
}.

(** What [canPurchaseSkill] ends with: a boolean or a thrown error, given by
    its message (localization keys stand for their texts). *)
Inductive Verdict : Set :=
| Answer (b : bool)
| Thrown (message : string).

Definition refuse (strict : bool) (message : string) : Verdict :=
  if strict then Thrown message else Answer false.

(** [canPurchaseSkill(skillId, delta, strict)].  Reading [name] of a [null]
    ancestry or background raises a [TypeError] in either mode. *)
Definition canPurchaseSkill (actor : SkillActor) (skillId : string) (delta : Z)
    (strict : bool) : Verdict :=
  let delta := JS.sign delta in
  match skills actor !! skillId with
  | None => Answer false
  | Some skill =>
      if delta =? 0 then Answer false
      else
        match ancestry actor with
        | None => Thrown "TypeError"
        | Some ancestry_name =>
            if negb (truthy ancestry_name) then
              refuse strict "WARNING.SkillRequireAncestryBackground"
            else
              match background actor with
              | None => Thrown "TypeError"
              | Some background_name =>
                  if negb (truthy background_name) then
                    refuse strict "WARNING.SkillRequireAncestryBackground"
                  else if delta <? 0 then
                    if rank skill =? 0 then refuse strict "Cannot decrease skill rank"
                    else Answer true
                  else if rank skill =? 5 then refuse strict "Skill already at maximum"
                  else if (rank skill =? 3) && negb (truthy (path skill))
                  then refuse strict "SKILL.ChoosePath"
                  else if skill_available actor <? cost skill
                  then refuse strict "SKILL.CantAfford"
                  else Answer true
              end
        end
  end.

(** The update key [`system.skills.${skillId}.${field}`]. *)
Definition skill_path (skillId field : string) : string :=
  "system.skills." +:+ skillId +:+ "." +:+ field.

(** [purchaseSkill(skillId, delta)]: whatever the strict test throws is
    caught and shown as a warning. *)
Definition purchaseSkill (actor : SkillActor) (skillId : string) (delta : Z)
  : Purchase :=
  let delta := JS.sign delta in
  match skills actor !! skillId with
  | None => NoChange
  | Some skill =>
      match canPurchaseSkill actor skillId delta true with
      | Thrown err => Refused err
      | Answer _ =>
          let rank := rank skill + delta in
          Update ((skill_path skillId "rank", Some rank)
                  :: if rank =? 3 then [(skill_path skillId "path", None)] else [])
      end
  end.

(** The skill once [this.update] has stored the changes of a purchase: the
    rank is replaced, the path is cleared when the update says so.  The cost
    of the next rank is derived data; [next_cost] stands for the value the
    data model gives it. *)
Definition purchased (skill : Skill) (skillId : string)
    (changes : list (string * option Z)) (next_cost : Z) : Skill :=
  {| rank := match List.find (fun c => String.eqb (fst c) (skill_path skillId "rank")) changes with
             | Some (_, Some r) => r
             | _ => rank skill
             end;
     path := if existsb (fun c => String.eqb (fst c) (skill_path skillId "path")) changes
             then None else path skill;
     cost := next_cost |}.

End Advancement.

(** ** The actor document, continued: rolls and damage *)

Module Rolls.
Import Actor.

(** A JavaScript number that may be [NaN]. *)
Inductive JSNumber : Set :=
| Number (z : Z)
| NaN.

(** [scaling.reduce((x, t) => x + abilities[t].value, 0)]; an ability that
    does not exist raises a [TypeError]. *)
Fixpoint ability_sum (abilities : gmap string Ability) (scaling : list string)
    (x : Z) : option Z :=
  match scaling with
  | [] => Some x
  | t :: scaling =>
      a ← abilities !! t;
      ability_sum abilities scaling (x + ability_value a)
  end.

(** [Math.ceil(s / n)] for a positive [n]. *)
Definition ceil_div (s n : Z) : Z := - ((- s) / n).

(** [getAbilityBonus(scaling)]: with an empty [scaling] the quotient is
    [0 / 0]. *)
Definition getAbilityBonus (abilities : gmap string Ability) (scaling : list string)
  : option JSNumber :=
  s ← ability_sum abilities scaling 0;
  Some (match scaling with
        | [] => NaN
        | _ => Number (ceil_div s (Z.of_nat (length scaling)))
        end).

(** An actor as [getTargetBoons] sees it: talents, statuses, whether a
    shield is equipped, and the combatant ([None] when the actor is not in
    the encounter) with its initiative ([None] when it is [null]). *)
Record BoonActor : Type := {
  boon_talents : gset string;
  boon_statuses : gset string;
  boon_shield : bool;
  combatant : option (option Z)
}.

(** [ac?.initiative > tc?.initiative]: a comparison with [undefined] is
    false, [null] counts as 0. *)
Definition initiative_gt (ac tc : option (option Z)) : bool :=
  match ac, tc with
  | Some a, Some t => default 0 t <? default 0 a
  | _, _ => false
  end.

(** The second argument of [getTargetBoons] as its callers pass it:
    [castSpell] hands over the name of the defense, [CrucibleWeapon.attack]
    an object [{attackType: "weapon", defenseType, ranged}]. *)
Inductive DefenseArg : Set :=
| DefenseName (defenseType : string)
| WeaponOptions (defenseType : string) (ranged : option bool)
| NoDefense.

#[global] Instance DefenseArg_eq_dec : EqDecision DefenseArg.
Proof. solve_decision. Defined.

(** [getTargetBoons(target, defenseType)]: the pair of boons and banes.
    [defenseType === "physical"] holds for the string only. *)
Definition getTargetBoons (this target : BoonActor) (defenseType : DefenseArg)
  : Z * Z :=
  let physical := bool_decide (defenseType = DefenseName "physical") in
  let boons := 0 in
  let banes := 0 in
  let boons :=
    if physical && bool_decide ("exposed"%string ∈ boon_statuses target)
    then boons + 2 else boons in
  let banes :=
    if physical && bool_decide ("guarded"%string ∈ boon_statuses target) then
      if bool_decide ("testudo000000000"%string ∈ boon_talents target) && boon_shield target
      then banes + 2 else banes + 1
    else banes in
  let boons :=
    if bool_decide ("strikefirst00000"%string ∈ boon_talents this)
       && initiative_gt (combatant this) (combatant target)
    then boons + 1 else boons in
  (boons, banes).

(** [roll.data.damage] and the flags of a roll that [dealDamage] reads. *)
Record DamageData : Set := {
  dmg_resource : option string;
  dmg_total : option Z;
  dmg_healing : bool
}.

Record AttackRoll : Set := {
  roll_damage : option DamageData;
  isCriticalSuccess : bool;
  isCriticalFailure : bool
}.

(** [resources[k] ??= 0; resources[k] += x] on an object whose keys keep
    the order in which they were first written. *)
Fixpoint add_to (resources : list (string * Z)) (k : string) (x : Z)
  : list (string * Z) :=
  match resources with
  | [] => [(k, 0 + x)]
  | (k', v) :: resources =>
      if String.eqb k' k then (k', v + x) :: resources
      else (k', v) :: add_to resources k x
  end.

(** The key and the amount one roll adds in the loop of [dealDamage]. *)
Definition rollChange (reverse : bool) (roll : AttackRoll) : string * Z :=
  let resource := default "health"%string (roll_damage roll ≫= dmg_resource) in
  let total := default 0 (roll_damage roll ≫= dmg_total) in
  let healing := from_option dmg_healing false (roll_damage roll) in
  let direction := if reverse then 1 else -1 in
  (resource, total * (if healing then -1 else 1) * direction).

Definition damageResources (rolls : list AttackRoll) (reverse : bool)
  : list (string * Z) :=
  fold_left (fun resources roll =>
               add_to resources (fst (rollChange reverse roll))
                      (snd (rollChange reverse roll)))
            rolls [].

(** [Object.values(resources).reduce((t, d) => t - d, 0)] *)
Definition damageTotal (resources : list (string * Z)) : Z :=
  fold_left (fun t d => t - snd d) resources 0.

(** The getters [isIncapacitated], [isBroken], [isDead] and [isInsane]; the
    right operand of [&&] is only read when the left one holds. *)
Definition isIncapacitated (r : gmap string Resource) : option bool :=
  health ← r !! "health"%string;
  if value health =? 0 then
    wounds ← r !! "wounds"%string; Some (value wounds <? max wounds)
  else Some false.

Definition isBroken (r : gmap string Resource) : option bool :=
  morale ← r !! "morale"%string;
  if value morale =? 0 then
    madness ← r !! "madness"%string; Some (value madness <? max madness)
  else Some false.



(** The outcome [dealDamage] returns. *)
Record DamageOutcome : Set := {
  out_resources : list (string * Z);
  out_total : Z;
  out_incapacitated : bool;
  out_broken : bool;
  out_critical : bool;
  out_failure : bool
}.

(** [dealDamage(target, rolls, {reverse})] for a target with resources [r]:
    the outcome and the resources of the target after its update. *)
Definition dealDamage (r : gmap string Resource) (rolls : list AttackRoll)
    (reverse : bool) : option (DamageOutcome * gmap string Resource) :=
  let resources := damageResources rolls reverse in
  let total := damageTotal resources in
  let critical := existsb isCriticalSuccess rolls in
  let failure :=
    existsb (fun roll => negb (isCriticalSuccess roll) && isCriticalFailure roll) rolls in
  wasIncapacitated ← isIncapacitated r;
  wasBroken ← isBroken r;
  updates ← alterResources r resources ∅;
  let r' := update r updates in
  incapacitated ← isIncapacitated r';
  broken ← isBroken r';
  Some ({| out_resources := resources;
           out_total := total;
           out_incapacitated := incapacitated && negb wasIncapacitated;
           out_broken := broken && negb wasBroken;
           out_critical := critical;
           out_failure := failure |}, r').

(** [rest()] and [_getRestData()].  [RESOURCES] gives the [type] of each
    entry of [SYSTEM.RESOURCES]; a pool the table does not know makes
    [cfg.type] raise a [TypeError].  Every pool writes a key of its own, so
    the order of the loop does not show. *)
Section Rest.
Variable RESOURCES : gmap string string.


End Rest.

End Rolls.

(** ** Token dispositions: [#getDispositions] *)

Module Disposition.

(** [CONST.TOKEN_DISPOSITIONS] *)
Inductive TOKEN_DISPOSITIONS : Set := SECRET | HOSTILE | NEUTRAL | FRIENDLY.

#[global] Instance TOKEN_DISPOSITIONS_eq_dec : EqDecision TOKEN_DISPOSITIONS.
Proof. solve_decision. Defined.

Record Dispositions : Set := {
  ally : list TOKEN_DISPOSITIONS;
  enemy : list TOKEN_DISPOSITIONS
}.

(** [#getDispositions()] of a token with the given disposition. *)
Definition getDispositions (disposition : TOKEN_DISPOSITIONS) : Dispositions :=
  match disposition with
  | SECRET => {| ally := []; enemy := [] |}
  | HOSTILE => {| ally := [HOSTILE]; enemy := [NEUTRAL; FRIENDLY] |}
  | NEUTRAL => {| ally := [NEUTRAL; FRIENDLY]; enemy := [HOSTILE] |}
  | FRIENDLY => {| ally := [NEUTRAL; FRIENDLY]; enemy := [HOSTILE] |}
  end.

(** The disposition test of [#computeEngagement]:
    [enemy.includes(token.document.disposition)]. *)
Definition isEnemy (this token : TOKEN_DISPOSITIONS) : bool :=
  bool_decide (token ∈ enemy (getDispositions this)).

Definition isAlly (this token : TOKEN_DISPOSITIONS) : bool :=
  bool_decide (token ∈ ally (getDispositions this)).

End Disposition.

(** ** Weapon preparation: the equipment slot *)

Module WeaponPrep.
Import Weapon.

#[global] Instance WEAPON_SLOTS_eq_dec : EqDecision WEAPON_SLOTS.
Proof. solve_decision. Defined.

(** The slot step of [prepareBaseData]: a stored slot the weapon may not
    occupy is replaced by [allowedSlots[0]], which is [undefined] for an
    empty array. *)
Definition prepareSlot (w : CrucibleWeapon) (slot : WEAPON_SLOTS) : option WEAPON_SLOTS :=
  let allowedSlots := getAllowedEquipmentSlots w in
  if bool_decide (slot ∈ allowedSlots) then Some slot else head allowedSlots.

End WeaponPrep.

(** ** Equipment management: [equipArmor] *)

Module Equipment.
Import Actor.

(** The items an actor owns: [this.itemTypes.armor] and the items of the
    other types.  [this.items] holds them all. *)
Record Inventory : Set := {
  armor : list CrucibleItem;
  others : list CrucibleItem
}.

Definition has_id (itemId : option string) (i : CrucibleItem) : bool :=
  bool_decide (item_id i = itemId).

(** [this.items.get(itemId)]; no item is stored under [undefined]. *)
Definition items_get (inv : Inventory) (itemId : option string) : option CrucibleItem :=
  match itemId with
  | Some _ => List.find (has_id itemId) (armor inv ++ others inv)
  | None => None
  end.

(** [a === b] for item documents: the stored items are told apart by their
    id, and an item that was never stored is none of them. *)
Definition same_document (a b : CrucibleItem) : bool :=
  match item_id a with
  | Some _ => bool_decide (item_id a = item_id b)
  | None => false
  end.

(** [item.update({"system.equipped": e})] *)
Definition set_equipped (e : bool) (itemId : option string) (items : list CrucibleItem)
  : list CrucibleItem :=
  map (fun i => if has_id itemId i
                then {| item_id := item_id i; item_name := item_name i; equipped := e |}
                else i) items.

Definition item_update (inv : Inventory) (item : CrucibleItem) (e : bool) : Inventory :=
  {| armor := set_equipped e (item_id item) (armor inv);
     others := set_equipped e (item_id item) (others inv) |}.

(** What [equipArmor] does: it returns the current armor and changes
    nothing, it updates an item, or it warns with the key
    [WARNING.CannotEquipSlotInUse] for the actor and the item named. *)
Inductive EquipOutcome : Set :=
| Kept
| Updated (inv : Inventory)
| CannotEquipSlotInUse (actor item : string).

Section EquipArmor.
Variable UNARMORED_DATA : CrucibleItem.

(** [equipArmor({itemId, equipped})].  [this.equipment.armor] is what
    [_prepareArmor] found; reading [item.name] or calling [item.update]
    on a missing item raises a [TypeError] ([None]). *)
Definition equipArmor (name : string) (inv : Inventory) (itemId : option string)
    (equipped : bool) : option EquipOutcome :=
  let current := snd (_prepareArmor UNARMORED_DATA name (armor inv)) in
  let item := items_get inv itemId in
  if from_option (same_document current) false item then
    if equipped then Some Kept
    else Some (Updated (item_update inv current false))
  else if truthy (item_id current) then
    item ← item;
    Some (CannotEquipSlotInUse name (item_name item))
  else
    item ← item;
    Some (Updated (item_update inv item true)).
End EquipArmor.

End Equipment.

(** ** Auxiliary notions and example data *)

Section WeaponData.
Import Weapon.

(** A versatile long sword of a one-handed, off-hand-eligible category. *)
Definition longsword : CrucibleWeapon :=
  {| category := {| hands := 1; main := true; off := true |};
     properties := {[ "versatile"%string ]} |}.

End WeaponData.

Section ActorData.
Import Actor.

(** The unarmored substitute and two armors, both flagged as equipped. *)
Definition unarmored : CrucibleItem :=
  {| item_id := None; item_name := "Unarmored"; equipped := true |}.

Definition leather : CrucibleItem :=
  {| item_id := Some "leatherarmor0000"%string; item_name := "Leather Armor";
     equipped := true |}.

Definition chain : CrucibleItem :=
  {| item_id := Some "chainmail0000000"%string; item_name := "Chain Mail";
     equipped := true |}.

(** A level-0 hero with strength already at 3 and two points left. *)
Definition novice : AbilityActor :=
  {| level := 0;
     abilities := {[ "strength"%string :=
                       {| base := 3; increases := 0; ability_value := 3 |} ]};
     ability_points := {| pool := 2; ability_available := 0 |} |}.

(** The rounds left on an effect: [(startRound + rounds) - round]. *)
Definition remaining (effect : ActiveEffect) (n round : Z) : Z :=
  (default 0 (startRound (duration effect)) + n) - round.

(** A one-round ward the hero cast on itself in round 4. *)
Definition ward : ActiveEffect :=
  {| effect_id := "ward000000000000";
     origin := Some "Actor.hero"%string;
     duration := {| startRound := Some 4; rounds := Some 1 |} |}.

(** The number compared with the defensive bands: the draw scaled by the
    physical total. *)
Definition band_roll (d : Defenses) (u : Q) : Q := (u * inject_Z (physical d))%Q.

(** A target with physical total 20, dodge 4, parry 2 and block 0. *)
Definition target_defenses : Defenses :=
  {| physical := 20;
     defense_total :=
       {[ "dodge"%string := 4; "parry"%string := 2; "block"%string := 0;
          "armor"%string := 14; "willpower"%string := 12 ]} |}.

(** Every value the update object holds for a pool lies between 0 and the
    maximum of that pool. *)
Definition clamped_updates (r : gmap string Resource) (updates : gmap string Z) : Prop :=
  forall (n : string) (res : Resource) (v : Z),
    r !! n = Some res -> updates !! resource_path n = Some v ->
    0 <= max res -> 0 <= v <= max res.

(** A hero at 10 of 20 health, with room for 30000 wounds. *)
Definition hurt : gmap string Resource :=
  {[ "health"%string := Build_Resource 10 20;
     "wounds"%string := Build_Resource 0 30000;
     "morale"%string := Build_Resource 10 20;
     "madness"%string := Build_Resource 0 30000 ]}.

(** [SYSTEM.SPELL.GESTURES.touch] *)
Definition touch : option string := component GESTURES "touch".

(** Three talents, each granting one action; the second teaches a rune. *)
Definition second_wind : CrucibleAction :=
  {| action_id := "second-wind"; action_name := "Second Wind" |}.

Definition shield_bash : CrucibleAction :=
  {| action_id := "shield-bash"; action_name := "Shield Bash" |}.

Definition uppercut : CrucibleAction :=
  {| action_id := "uppercut"; action_name := "Uppercut" |}.

Definition resilient : Talent :=
  {| talent_id := "resilient0000000"; talent_rune := None; talent_gesture := None;
     talent_inflection := None; talent_actions := [second_wind] |}.

Definition pyromancer : Talent :=
  {| talent_id := "pyromancer000000"; talent_rune := Some "flame"%string;
     talent_gesture := None; talent_inflection := None;
     talent_actions := [shield_bash] |}.

Definition pugilist : Talent :=
  {| talent_id := "pugilist00000000"; talent_rune := None; talent_gesture := None;
     talent_inflection := None; talent_actions := [uppercut] |}.

(** Three talents on a budget of two points. *)
Definition overspent : Prepared :=
  prepareEmbeddedDocuments (fun a => a) unarmored "Ada"
    {| total := 2; spent := 0; available := 0 |}
    [resilient; pyromancer; pugilist] [] false.

End ActorData.

Section SpellNotions.
Import Spell.
Variable super_prepareForActor : SpellActor -> CrucibleSpell -> CrucibleSpell.

(** The spell as it reaches the blood magic step of [_prepareForActor]. *)
Definition entering (actor : SpellActor) (spell : CrucibleSpell) : CrucibleSpell :=
  prepareGesture actor (super_prepareForActor actor spell).

End SpellNotions.

Section SpellData.
Import Spell.

(** The ray gesture with the extend inflection, still being composed, cast
    by a blood mage. *)
Definition ray : Gesture :=
  {| gesture_id := "ray"; gesture_cost := {| action := 2; focus := 1; health := None |} |}.

Definition extend : Inflection :=
  {| inflection_id := "extend";
     inflection_cost := {| action := 1; focus := 1; health := None |} |}.

Definition bloodmage : SpellActor :=
  {| talentIds := {[ "bloodmagic000000"%string ]};
     status := {| rangedAttack := false; arcaneArcher := false;
                  meleeAttack := false; spellblade := false |} |}.

Definition extended_ray : CrucibleSpell :=
  {| gesture := ray; inflection := Some extend; composition := COMPOSING;
     cost := {| action := 3; focus := 2; health := None |};
     _trueCost := None |}.

End SpellData.

Section UtilityData.
Import Utility.

(** Two swords entered under different spellings. *)
Definition long_sword : Item :=
  {| id := "a1b2c3d4e5f6g7h8"; name := "Long Sword" |}.

Definition longsword_item : Item :=
  {| id := "h8g7f6e5d4c3b2a1"; name := "longsword" |}.

End UtilityData.

Section TokenData.
Import Token.

(** Token 1 moves next to token 2 on a canvas where both have actors. *)
Definition skirmish : Canvas :=
  updateFlanking (empty_canvas {[ 1%nat; 2%nat ]}) 1%nat true {[ 2%nat ]}.

(** Token 1 has just been drawn next to token 2: its own set holds what its
    engagement computation found, and token 2 has not been told. *)
Definition freshly_drawn : Canvas :=
  _draw (empty_canvas {[ 1%nat; 2%nat ]}) 1%nat {[ 2%nat ]}.

(** On a committing client, token 1, which has an actor, moved next to
    token 2, which has none. *)
Definition unlinked : Canvas :=
  updateFlanking (empty_canvas {[ 1%nat ]}) 1%nat true {[ 2%nat ]}.

End TokenData.

Section ActorDataMore.
Import Actor.

(** What a change of -15 to the health of [hurt] asks to be stored. *)
Definition hurt_updates : gmap string Z :=
  <[ resource_path "health" := 0 ]> (<[ resource_path "wounds" := 5 ]> ∅).

(** A target whose block does not exceed its parry. *)
Definition duelist_defenses : Defenses :=
  {| physical := 20;
     defense_total :=
       {[ "dodge"%string := 4; "parry"%string := 6; "block"%string := 2 ]} |}.

(** A seasoned hero: level 3, strength raised twice to 12, no points left. *)
Definition veteran : AbilityActor :=
  {| level := 3;
     abilities := {[ "strength"%string :=
                       {| base := 3; increases := 2; ability_value := 12 |} ]};
     ability_points := {| pool := 0; ability_available := 1 |} |}.

End ActorDataMore.

Section MoreData.
Import Token.


End MoreData.

Section UtilityDataMore.
Import Utility.

(** A sword that already carries its standardized id. *)
Definition standard_sword : Item :=
  {| id := "longsword0000000"; name := "Long Sword" |}.

End UtilityDataMore.

Section AdvancementData.
Import Advancement.

(** A hero with ancestry and background, stealth at rank 2 and 4 skill
    points left. *)
Definition stealth2 : Skill := {| rank := 2; path := None; cost := 2 |}.

Definition apprentice : SkillActor :=
  {| skills := {[ "stealth"%string := stealth2 ]};
     ancestry := Some (Some "Human"%string);
     background := Some (Some "Scout"%string);
     skill_available := 4 |}.

(** The same hero once the purchase of rank 3 is stored. *)
Definition apprentice3 : SkillActor :=
  {| skills := <[ "stealth"%string :=
                    purchased stealth2 "stealth"
                      [(skill_path "stealth" "rank", Some 3);
                       (skill_path "stealth" "path", None)] 4 ]>
                 (skills apprentice);
     ancestry := ancestry apprentice;
     background := background apprentice;
     skill_available := 2 |}.

End AdvancementData.

Section RollsData.
Import Actor Rolls.

(** Strength 5 and dexterity 2. *)
Definition fit : gmap string Ability :=
  {[ "strength"%string := {| base := 3; increases := 2; ability_value := 5 |};
     "dexterity"%string := {| base := 2; increases := 0; ability_value := 2 |} ]}.

(** A hit for 12 and a heal for 4, both on health. *)
Definition hit12 : AttackRoll :=
  {| roll_damage := Some {| dmg_resource := None; dmg_total := Some 12;
                            dmg_healing := false |};
     isCriticalSuccess := false; isCriticalFailure := false |}.

Definition heal4 : AttackRoll :=
  {| roll_damage := Some {| dmg_resource := Some "health"%string; dmg_total := Some 4;
                            dmg_healing := true |};
     isCriticalSuccess := false; isCriticalFailure := false |}.

(** A hero at 10 of 20 health with 2 of 6 wounds. *)
Definition frail : gmap string Resource :=
  {[ "health"%string := Build_Resource 10 20;
     "wounds"%string := Build_Resource 2 6;
     "morale"%string := Build_Resource 10 20;
     "madness"%string := Build_Resource 0 6 ]}.


End RollsData.

Section RollsNotions.
Import Rolls.

(** What a roll takes from its pool: its total, negative for healing, and
    nothing when the roll carries no damage. *)
Definition signedDamage (roll : AttackRoll) : Z :=
  match roll_damage roll with
  | Some d => default 0 (dmg_total d) * (if dmg_healing d then -1 else 1)
  | None => 0
  end.

(** The pool a roll is aimed at. *)
Definition rollResource (roll : AttackRoll) : string :=
  default "health"%string (roll_damage roll ≫= dmg_resource).

End RollsNotions.

Section EquipmentNotions.
Import Actor Equipment.

(** At most one armor is flagged as equipped. *)
Definition one_armor (inv : Inventory) : Prop :=
  (length (List.filter equipped (armor inv)) <= 1)%nat.

(** Every item is stored: it has a non-empty id, and no two items share
    one. *)
Definition stored (inv : Inventory) : Prop :=
  NoDup (map item_id (armor inv ++ others inv)) /\
  Forall (fun i => truthy (item_id i) = true) (armor inv ++ others inv).

(** Two armors in the pack, none of them worn, and a cloak. *)
Definition packed_leather : CrucibleItem :=
  {| item_id := Some "leatherarmor0000"%string;
     item_name := "Leather Armor"; equipped := false |}.

Definition wardrobe : Inventory :=
  {| armor := [ packed_leather;
                {| item_id := Some "chainmail0000000"%string;
                   item_name := "Chain Mail"; equipped := false |} ];
     others := [ {| item_id := Some "cloak00000000000"%string;
                    item_name := "Cloak"; equipped := false |} ] |}.

End EquipmentNotions.

Section DamageNotions.
Import Rolls.

(** What a list of rolls takes in all: damage counts up, healing down. *)
Definition damageSum (rolls : list AttackRoll) : Z :=
  fold_right (fun roll t => signedDamage roll + t) 0 rolls.

(** The sum of the changes a change object holds. *)
Definition pool_sum (resources : list (string * Z)) : Z :=
  fold_right (fun d t => snd d + t) 0 resources.

End DamageNotions.

(** ** Theorems *)

(** *** Weapon slots *)

Section WeaponSlots.
Import Weapon.

(** C3. A weapon whose category needs two hands may only go into the
    two-hand slot.  Any other weapon gets MAINHAND, framed by EITHER in
    front and OFFHAND behind when its category is off-hand eligible, and
    followed by TWOHAND when it is versatile; a one-handed, off-hand
    eligible, versatile weapon gets EITHER, MAINHAND, OFFHAND, TWOHAND in
    this order. *)
Theorem getAllowedEquipmentSlots_spec (w : CrucibleWeapon) :
  (hands (category w) = 2 -> getAllowedEquipmentSlots w = [TWOHAND]) /\
  (hands (category w) <> 2 ->
     getAllowedEquipmentSlots w =
       (if off (category w) then [EITHER] else []) ++ [MAINHAND] ++
       (if off (category w) then [OFFHAND] else []) ++
       (if bool_decide ("versatile"%string ∈ properties w) then [TWOHAND] else [])) /\
  (hands (category w) = 1 -> off (category w) = true ->
     "versatile"%string ∈ properties w ->
     getAllowedEquipmentSlots w = [EITHER; MAINHAND; OFFHAND; TWOHAND]).
Proof.
  unfold getAllowedEquipmentSlots. repeat split.
  - intros ->. reflexivity.
  - intros Hne. apply Z.eqb_neq in Hne. rewrite Hne.
    destruct (off (category w)); case_bool_decide; reflexivity.
  - intros -> -> Hv. simpl. rewrite bool_decide_eq_true_2 by exact Hv.
    reflexivity.
Qed.

Lemma getAllowedEquipmentSlots_spec_witness :
  getAllowedEquipmentSlots longsword = [EITHER; MAINHAND; OFFHAND; TWOHAND].
Proof.
  apply (proj2 (proj2 (getAllowedEquipmentSlots_spec longsword))).
  - reflexivity.
  - reflexivity.
  - exact (proj2 (elem_of_singleton _ _) eq_refl).
Defined.

End WeaponSlots.

(** *** Equipped armor *)

Section EquippedArmor.
Import Actor.
Variable UNARMORED_DATA : CrucibleItem.

(** C10. With more than one armor flagged as equipped the actor is warned
    and ends up with the unarmored substitute, not with one of the
    equipped armors; with exactly one equipped armor it gets that armor,
    with none the unarmored substitute, both without a warning. *)
Theorem _prepareArmor_spec (name : string) (armorItems : list CrucibleItem) :
  ((1 < length (List.filter equipped armorItems))%nat ->
     _prepareArmor UNARMORED_DATA name armorItems
     = ([armor_warning name], _getUnarmoredArmor UNARMORED_DATA)) /\
  (forall a : CrucibleItem,
     List.filter equipped armorItems = [a] ->
     _prepareArmor UNARMORED_DATA name armorItems = ([], a)) /\
  (List.filter equipped armorItems = [] ->
     _prepareArmor UNARMORED_DATA name armorItems
     = ([], _getUnarmoredArmor UNARMORED_DATA)).
Proof.
  unfold _prepareArmor. repeat split.
  - intros Hlen.
    destruct (List.filter equipped armorItems) as [|a [|b l]] eqn:E;
      simpl in Hlen; try lia.
    replace (1 <? Z.of_nat (length (a :: b :: l))) with true
      by (symmetry; apply Z.ltb_lt; simpl length; lia).
    reflexivity.
  - intros a ->. reflexivity.
  - intros ->. reflexivity.
Qed.

End EquippedArmor.

Section EquippedArmorExample.
Import Actor.

Lemma _prepareArmor_spec_witness :
  _prepareArmor unarmored "Ada" [leather; chain]
  = ([armor_warning "Ada"], unarmored).
Proof.
  apply (proj1 (_prepareArmor_spec unarmored "Ada" [leather; chain])).
  simpl. lia.
Defined.

End EquippedArmorExample.

(** *** Ability purchases *)

Section AbilityPurchase.
Import Actor.

(** Without a direction, or for an unknown ability, the test answers
    nothing at all. *)
Lemma canPurchaseAbility_undefined (actor : AbilityActor) (ability : string) :
  canPurchaseAbility actor ability 0 = None /\
  (abilities actor !! ability = None ->
   forall delta : Z, canPurchaseAbility actor ability delta = None).
Proof.
  unfold canPurchaseAbility. split.
  - simpl. destruct (abilities actor !! ability); reflexivity.
  - intros -> delta. reflexivity.
Qed.

(** C4. At level 0, for a known ability: an increase is refused when the
    base value is 3 or the point pool is empty, a decrease is refused when
    the base value is 0, and every other increase or decrease is
    allowed. *)
Theorem canPurchaseAbility_L0 (actor : AbilityActor) (ability : string)
    (a : Ability) (delta : Z) :
  isL0 actor = true ->
  abilities actor !! ability = Some a ->
  (0 < delta -> base a = 3 \/ pool (ability_points actor) = 0 ->
     canPurchaseAbility actor ability delta = Some false) /\
  (delta < 0 -> base a = 0 ->
     canPurchaseAbility actor ability delta = Some false) /\
  (0 < delta -> base a <> 3 -> pool (ability_points actor) <> 0 ->
     canPurchaseAbility actor ability delta = Some true) /\
  (delta < 0 -> base a <> 0 ->
     canPurchaseAbility actor ability delta = Some true).
Proof.
  intros HL0 Ha. unfold canPurchaseAbility, JS.sign, JS.falsy.
  rewrite Ha, HL0. repeat split.
  - intros Hd Hor. rewrite (Z.sgn_pos delta Hd). simpl.
    destruct Hor as [-> | ->]; [reflexivity |].
    rewrite orb_true_r. reflexivity.
  - intros Hd Hb. rewrite (Z.sgn_neg delta Hd), Hb. reflexivity.
  - intros Hd Hb Hp. rewrite (Z.sgn_pos delta Hd). simpl.
    apply Z.eqb_neq in Hb, Hp. rewrite Hb, Hp. reflexivity.
  - intros Hd Hb. rewrite (Z.sgn_neg delta Hd). simpl.
    apply Z.eqb_neq in Hb. rewrite Hb. reflexivity.
Qed.

Lemma canPurchaseAbility_L0_witness :
  canPurchaseAbility novice "strength" 1 = Some false /\
  canPurchaseAbility novice "strength" (-1) = Some true.
Proof.
  pose proof (canPurchaseAbility_L0 novice "strength"
                {| base := 3; increases := 0; ability_value := 3 |}) as H.
  split.
  - destruct (H 1 eq_refl eq_refl) as [H1 _].
    apply H1; [lia | left; reflexivity].
  - destruct (H (-1) eq_refl eq_refl) as (_ & _ & _ & H4).
    apply H4; [lia | simpl; lia].
Defined.

End AbilityPurchase.

(** *** Effect expiry *)

Section EffectExpiry.
Import Actor.

(** An effect without a numeric duration never expires. *)
Lemma isEffectExpired_no_rounds (uuid : string) (round : Z)
    (effect : ActiveEffect) (start : bool) :
  rounds (duration effect) = None ->
  isEffectExpired uuid round effect start = false.
Proof. unfold isEffectExpired. intros ->. reflexivity. Qed.

(** What [expireEffects] deletes: the ids of the expired effects. *)
Lemma expireEffects_spec (uuid : string) (round : Z)
    (effects : list ActiveEffect) (start : bool) (i : string) :
  i ∈ expireEffects uuid round effects start <->
  exists effect, effect ∈ effects /\ effect_id effect = i /\
                 isEffectExpired uuid round effect start = true.
Proof.
  unfold expireEffects. rewrite list_elem_of_fmap. split.
  - intros (e & -> & He). apply list_elem_of_In, filter_In in He.
    destruct He as [He Hx]. exists e. rewrite list_elem_of_In. auto.
  - intros (e & He & <- & Hx). exists e. split; [reflexivity |].
    apply list_elem_of_In, filter_In. rewrite <- list_elem_of_In. auto.
Qed.

(** C5. An effect lasting [n] rounds that the owner cast on itself is
    expired, at either end of a turn, exactly when
    [(startRound + n) - round <= 0]; one cast by somebody else is expired
    at the start of a turn exactly when this number is below 0 and at the
    end of a turn exactly when it is at most 0.  Hence a self effect of
    one round made in round [N] stays through round [N] and is expired at
    the start of the owner's turn in round [N + 1], while the same effect
    from another actor survives that start of turn and is expired at the
    end of the turn in round [N + 1]. *)
Theorem isEffectExpired_spec (uuid : string) (round : Z)
    (effect : ActiveEffect) (n : Z) :
  rounds (duration effect) = Some n ->
  (origin effect = Some uuid ->
     forall start : bool,
       isEffectExpired uuid round effect start = true
       <-> remaining effect n round <= 0) /\
  (origin effect <> Some uuid ->
     (isEffectExpired uuid round effect true = true
      <-> remaining effect n round < 0) /\
     (isEffectExpired uuid round effect false = true
      <-> remaining effect n round <= 0)) /\
  (forall N : Z,
     startRound (duration effect) = Some N -> n = 1 ->
     (forall (r : Z) (start : bool),
        r <= N -> isEffectExpired uuid r effect start = false) /\
     (origin effect = Some uuid ->
        isEffectExpired uuid (N + 1) effect true = true) /\
     (origin effect <> Some uuid ->
        isEffectExpired uuid (N + 1) effect true = false /\
        isEffectExpired uuid (N + 1) effect false = true)).
Proof.
  intros Hn. unfold isEffectExpired, remaining. rewrite Hn.
  split; [| split].
  - intros Ho start. rewrite bool_decide_eq_true_2 by exact Ho.
    apply Z.leb_le.
  - intros Ho. rewrite bool_decide_eq_false_2 by exact Ho.
    split; [apply Z.ltb_lt | apply Z.leb_le].
  - intros N HN ->. rewrite HN. simpl default. repeat split.
    + intros r start Hr.
      destruct (bool_decide (origin effect = Some uuid)), start;
        first [apply Z.leb_gt | apply Z.ltb_ge]; lia.
    + intros Ho. rewrite bool_decide_eq_true_2 by exact Ho.
      apply Z.leb_le. lia.
    + rewrite bool_decide_eq_false_2 by assumption. apply Z.ltb_ge. lia.
    + rewrite bool_decide_eq_false_2 by assumption. apply Z.leb_le. lia.
Qed.

Lemma isEffectExpired_spec_witness :
  isEffectExpired "Actor.hero" 5 ward true = true /\
  isEffectExpired "Actor.rival" 5 ward true = false /\
  isEffectExpired "Actor.rival" 5 ward false = true.
Proof.
  destruct (isEffectExpired_spec "Actor.hero" 5 ward 1 eq_refl)
    as (_ & _ & Hself).
  destruct (isEffectExpired_spec "Actor.rival" 5 ward 1 eq_refl)
    as (_ & _ & Hother).
  destruct (Hself 4 eq_refl eq_refl) as (_ & H1 & _).
  destruct (Hother 4 eq_refl eq_refl) as (_ & _ & H2).
  split; [apply H1; reflexivity |].
  apply H2. discriminate.
Defined.

End EffectExpiry.

(** *** Defense testing *)

Section DefenseTest.
Import Actor.

Lemma Qle_bool_false (x y : Q) : Qle_bool x y = false <-> ~ (x <= y)%Q.
Proof.
  rewrite <- Qle_bool_iff. destruct (Qle_bool x y); split; intros H.
  - discriminate.
  - exfalso. apply H. reflexivity.
  - discriminate.
  - reflexivity.
Qed.

(** C2. Against physical defense the result is HIT exactly when the roll
    total exceeds the physical total.  Otherwise, with [r] the draw scaled by
    the physical total: DODGE when [r <= dodge]; PARRY when
    [dodge < r <= dodge + parry]; BLOCK when neither holds and
    [r <= dodge + block]; DEFLECT in every remaining case.  Against any other
    defense the result is EFFECTIVE when the roll total exceeds that
    defense's total and RESIST otherwise. *)
Theorem testDefense_spec (d : Defenses) (u : Q) (rollTotal : Z) (dc : option Z)
    (dodge parry block : Z) :
  defense_total d !! "dodge"%string = Some dodge ->
  defense_total d !! "parry"%string = Some parry ->
  defense_total d !! "block"%string = Some block ->
  let r := band_roll d u in
  let physically := testDefense d u (Some "physical"%string) rollTotal dc in
  (physically = Some HIT <-> physical d < rollTotal) /\
  (rollTotal <= physical d ->
     ((r <= inject_Z dodge)%Q -> physically = Some DODGE) /\
     (~ (r <= inject_Z dodge)%Q -> (r <= inject_Z (dodge + parry))%Q ->
        physically = Some PARRY) /\
     (~ (r <= inject_Z dodge)%Q -> ~ (r <= inject_Z (dodge + parry))%Q ->
        (r <= inject_Z (dodge + block))%Q -> physically = Some BLOCK) /\
     (~ (r <= inject_Z dodge)%Q -> ~ (r <= inject_Z (dodge + parry))%Q ->
        ~ (r <= inject_Z (dodge + block))%Q -> physically = Some DEFLECT)) /\
  (forall (defenseType : string) (t : Z),
     defenseType <> "physical"%string -> defenseType <> ""%string ->
     defense_total d !! defenseType = Some t ->
     (t < rollTotal ->
        testDefense d u (Some defenseType) rollTotal dc = Some EFFECTIVE) /\
     (rollTotal <= t ->
        testDefense d u (Some defenseType) rollTotal dc = Some RESIST)).
Proof.
  intros Hd Hp Hb r physically.
  assert (Hcascade : rollTotal <= physical d ->
            physically =
              if Qle_bool r (inject_Z dodge) then Some DODGE
              else if Qle_bool r (inject_Z (dodge + parry)) then Some PARRY
              else if Qle_bool r (inject_Z (dodge + block)) then Some BLOCK
              else Some DEFLECT).
  { intros Hle. subst physically. unfold testDefense.
    rewrite bool_decide_eq_true_2 by reflexivity.
    replace (physical d <? rollTotal) with false
      by (symmetry; apply Z.ltb_ge; exact Hle).
    rewrite Hd. simpl. fold (band_roll d u). fold r.
    destruct (Qle_bool r (inject_Z dodge)); [reflexivity |].
    rewrite Hp. simpl.
    destruct (Qle_bool r (inject_Z (dodge + parry))); [reflexivity |].
    rewrite Hb. reflexivity. }
  split; [| split].
  - split.
    + intros Hhit. destruct (Z.lt_ge_cases (physical d) rollTotal) as [Hlt | Hge];
        [exact Hlt |].
      rewrite (Hcascade Hge) in Hhit.
      repeat match type of Hhit with
             | context [Qle_bool ?a ?b] => destruct (Qle_bool a b)
             end; discriminate.
    + intros Hlt. subst physically. unfold testDefense.
      rewrite bool_decide_eq_true_2 by reflexivity.
      apply Z.ltb_lt in Hlt. rewrite Hlt. reflexivity.
  - intros Hle. rewrite (Hcascade Hle). repeat split.
    + intros H1. apply Qle_bool_iff in H1. rewrite H1. reflexivity.
    + intros H1 H2. apply Qle_bool_false in H1. apply Qle_bool_iff in H2.
      rewrite H1, H2. reflexivity.
    + intros H1 H2 H3. apply Qle_bool_false in H1, H2. apply Qle_bool_iff in H3.
      rewrite H1, H2, H3. reflexivity.
    + intros H1 H2 H3. apply Qle_bool_false in H1, H2, H3.
      rewrite H1, H2, H3. reflexivity.
  - intros defenseType t Hnp Hne Ht. unfold testDefense.
    rewrite bool_decide_eq_false_2 by congruence.
    assert (Htruthy : truthy (Some defenseType) = true).
    { simpl. apply negb_true_iff, String.eqb_neq. exact Hne. }
    rewrite Htruthy. simpl. rewrite Ht. simpl.
    split; intros H.
    + apply Z.ltb_lt in H. rewrite H. reflexivity.
    + apply Z.ltb_ge in H. rewrite H. reflexivity.
Qed.

Lemma testDefense_spec_witness :
  testDefense target_defenses (3 # 20)%Q (Some "physical"%string) 15 None = Some DODGE /\
  testDefense target_defenses (5 # 20)%Q (Some "physical"%string) 15 None = Some PARRY /\
  testDefense target_defenses (10 # 20)%Q (Some "physical"%string) 15 None = Some DEFLECT /\
  testDefense target_defenses (10 # 20)%Q (Some "physical"%string) 21 None = Some HIT /\
  testDefense target_defenses (10 # 20)%Q (Some "willpower"%string) 13 None = Some EFFECTIVE.
Proof.
  pose proof (fun u roll =>
    testDefense_spec target_defenses u roll None 4 2 0 eq_refl eq_refl eq_refl) as H.
  cbv zeta in H.
  split; [| split; [| split; [| split]]].
  - apply (proj1 (proj2 (H (3 # 20)%Q 15))); [simpl; lia |]. vm_compute. discriminate.
  - apply (proj1 (proj2 (H (5 # 20)%Q 15))); [simpl; lia | |]; vm_compute;
      first [discriminate | intros Hc; apply Hc; reflexivity].
  - apply (proj1 (proj2 (H (10 # 20)%Q 15))); [simpl; lia | | |]; vm_compute;
      intros Hc; apply Hc; reflexivity.
  - apply (proj1 (H (10 # 20)%Q 21)). simpl. lia.
  - apply (proj2 (proj2 (H (10 # 20)%Q 13)) "willpower"%string 12);
      [discriminate | discriminate | reflexivity | lia].
Defined.

End DefenseTest.

(** *** Strings *)

Section StringFacts.

Lemma length_append (s1 s2 : string) :
  String.length (s1 +:+ s2) = (String.length s1 + String.length s2)%nat.
Proof.
  induction s1 as [| c s1 IH]; simpl; [reflexivity |]. rewrite IH. reflexivity.
Qed.

Lemma append_inj_r (a b s : string) : a +:+ s = b +:+ s -> a = b.
Proof.
  revert b. induction a as [| c a IH]; intros [| c' b] H.
  - reflexivity.
  - apply (f_equal String.length) in H.
    rewrite !length_append in H. simpl in H. lia.
  - apply (f_equal String.length) in H.
    rewrite !length_append in H. simpl in H. lia.
  - cbn in H. injection H as -> H. f_equal. apply IH. exact H.
Qed.

Lemma resource_path_inj (n1 n2 : string) :
  Actor.resource_path n1 = Actor.resource_path n2 -> n1 = n2.
Proof.
  unfold Actor.resource_path. intros H.
  apply (inj (String.app _)) in H. apply append_inj_r in H. exact H.
Qed.

End StringFacts.

(** *** Resource pools *)

Section ResourcePools.
Import Actor.

Lemma clamped_bounds (num hi : Z) :
  0 <= hi -> 0 <= JS.clamped num 0 hi <= hi.
Proof. unfold JS.clamped. lia. Qed.

Lemma clamped_updates_insert (r : gmap string Resource) (updates : gmap string Z)
    (n : string) (res : Resource) (x : Z) :
  r !! n = Some res ->
  clamped_updates r updates ->
  clamped_updates r (<[ resource_path n := JS.clamped x 0 (max res) ]> updates).
Proof.
  intros Hn Hinv n' res' v Hn' Hv Hmax.
  destruct (decide (n = n')) as [<- | Hne].
  - rewrite lookup_insert_eq in Hv. injection Hv as <-.
    rewrite Hn in Hn'. injection Hn' as <-. apply clamped_bounds. exact Hmax.
  - rewrite lookup_insert_ne in Hv
      by (intros Heq; apply Hne, resource_path_inj, Heq).
    eapply Hinv; eassumption.
Qed.

Lemma alterResource_clamped (r : gmap string Resource) (updates updates' : gmap string Z)
    (change : string * Z) :
  clamped_updates r updates ->
  alterResource r updates change = Some updates' ->
  clamped_updates r updates' /\ is_Some (updates' !! resource_path (fst change)).
Proof.
  intros Hinv. destruct change as [resourceName delta]. unfold alterResource.
  destruct (r !! resourceName) as [resource |] eqn:Hres; [| discriminate].
  simpl.
  intros H.
  repeat match type of H with
         | context [if ?b then _ else _] => destruct b
         | context [r !! ?x] => destruct (r !! x) eqn:?; simpl in H
         end; try discriminate; injection H as <-;
    (split;
     [ repeat (apply clamped_updates_insert; [assumption |]); exact Hinv
     | rewrite lookup_insert_eq; eexists; reflexivity ]).
Qed.

Lemma alterResource_keeps (r : gmap string Resource) (updates updates' : gmap string Z)
    (change : string * Z) (k : string) :
  alterResource r updates change = Some updates' ->
  is_Some (updates !! k) -> is_Some (updates' !! k).
Proof.
  destruct change as [resourceName delta]. unfold alterResource.
  destruct (r !! resourceName) as [resource |]; [| discriminate]. simpl.
  intros H Hk.
  assert (Hins : forall (u : gmap string Z) (k' : string) (x : Z),
             is_Some (u !! k) -> is_Some (<[ k' := x ]> u !! k)).
  { intros u k' x Hu. destruct (decide (k' = k)) as [-> | Hne].
    - rewrite lookup_insert_eq. eexists. reflexivity.
    - rewrite lookup_insert_ne by exact Hne. exact Hu. }
  repeat match type of H with
         | context [if ?b then _ else _] => destruct b
         | context [r !! ?x] => destruct (r !! x); simpl in H
         end; try discriminate; injection H as <-; auto.
Qed.

Lemma alterResources_keeps (r : gmap string Resource) (changes : list (string * Z))
    (updates updates' : gmap string Z) (k : string) :
  alterResources r changes updates = Some updates' ->
  is_Some (updates !! k) -> is_Some (updates' !! k).
Proof.
  revert updates. induction changes as [| change changes IH]; intros updates H Hk.
  - simpl in H. injection H as <-. exact Hk.
  - simpl in H.
    destruct (alterResource r updates change) as [u1 |] eqn:E; [| discriminate].
    simpl in H. apply (IH u1 H). eapply alterResource_keeps; eassumption.
Qed.

(** The clamping half of the resource rule: once [alterResources] has gone
    through, the update object holds, for every pool named in the changes, a
    value between 0 and that pool's maximum, and the same holds of every
    other pool value it carries, given that it held of the updates passed
    in. *)
Lemma alterResources_clamped (r : gmap string Resource) (changes : list (string * Z))
    (updates updates' : gmap string Z) :
  clamped_updates r updates ->
  alterResources r changes updates = Some updates' ->
  clamped_updates r updates' /\
  forall change, change ∈ changes -> is_Some (updates' !! resource_path (fst change)).
Proof.
  revert updates. induction changes as [| change changes IH]; intros updates Hinv H.
  - simpl in H. injection H as <-. split; [exact Hinv |].
    intros change Hin. inversion Hin.
  - simpl in H.
    destruct (alterResource r updates change) as [u1 |] eqn:E; [| discriminate].
    simpl in H. destruct (alterResource_clamped _ _ _ _ Hinv E) as [Hinv1 Hsome].
    destruct (IH u1 Hinv1 H) as [Hinv' Hall]. split; [exact Hinv' |].
    intros change' Hin. apply elem_of_cons in Hin as [-> | Hin].
    + eapply alterResources_keeps; eassumption.
    + apply Hall. exact Hin.
Qed.

(** [alterResources] goes through when every pool it is asked to change
    exists, along with wounds and madness. *)
Lemma alterResources_returns (r : gmap string Resource) (changes : list (string * Z))
    (updates : gmap string Z) :
  (forall change, change ∈ changes -> is_Some (r !! fst change)) ->
  is_Some (r !! "wounds"%string) ->
  is_Some (r !! "madness"%string) ->
  is_Some (alterResources r changes updates).
Proof.
  intros Hall [w Hw] [m Hm]. revert updates.
  induction changes as [| [n delta] changes IH]; intros updates.
  - eexists. reflexivity.
  - destruct (Hall (n, delta)) as [res Hres]; [left |]. simpl in Hres.
    simpl. rewrite Hres, Hw, Hm. simpl.
    repeat match goal with
           | |- context [if ?b then _ else _] => destruct b; simpl
           end;
      (apply IH; intros change Hin; apply Hall; right; exact Hin).
Qed.

Lemma clamped_updates_empty (r : gmap string Resource) : clamped_updates r ∅.
Proof. intros n res v _ Hv. rewrite lookup_empty in Hv. discriminate. Qed.

(** After the update every pool named in the changes holds a value between
    0 and its maximum. *)
Lemma alterResources_pool_bounds (r : gmap string Resource)
    (changes : list (string * Z)) (updates updates' : gmap string Z)
    (n : string) (delta : Z) (res : Resource) :
  clamped_updates r updates ->
  alterResources r changes updates = Some updates' ->
  (n, delta) ∈ changes ->
  r !! n = Some res ->
  0 <= max res ->
  exists res', update r updates' !! n = Some res' /\
               max res' = max res /\ 0 <= value res' <= max res'.
Proof.
  intros Hinv H Hin Hres Hmax.
  destruct (alterResources_clamped r changes updates updates' Hinv H) as [Hinv' Hall].
  destruct (Hall _ Hin) as [v Hv]. simpl in Hv.
  exists {| value := v; max := max res |}. unfold update.
  rewrite map_lookup_imap, Hres. simpl. rewrite Hv. simpl.
  split; [reflexivity | split; [reflexivity |]].
  eapply Hinv'; eassumption.
Qed.

(** What a single change to health stores when it takes health below 0:
    health itself clamped, and on wounds the current value plus the part of
    the damage that health could not take. *)
Lemma alterResources_health_overflow (r : gmap string Resource)
    (updates : gmap string Z) (h w : Resource) (delta : Z) :
  r !! "health"%string = Some h ->
  r !! "wounds"%string = Some w ->
  value h + delta < 0 ->
  alterResources r [("health"%string, delta)] updates
  = Some (<[ resource_path "health" := JS.clamped (value h + delta) 0 (max h) ]>
            (<[ resource_path "wounds" :=
                  JS.clamped (value w + Z.abs (value h + delta)) 0 (max w) ]> updates)).
Proof.
  intros Hh Hw Hneg. simpl. rewrite Hh. simpl.
  replace (Z.min (value h + delta) 0) with (value h + delta) by lia.
  replace (value h + delta =? 0) with false by (symmetry; apply Z.eqb_neq; lia).
  simpl. rewrite Hw. simpl.
  replace (value w - (value h + delta)) with (value w + Z.abs (value h + delta)) by lia.
  reflexivity.
Qed.

(** The same for morale and madness. *)
Lemma alterResources_morale_overflow (r : gmap string Resource)
    (updates : gmap string Z) (m w : Resource) (delta : Z) :
  r !! "morale"%string = Some m ->
  r !! "madness"%string = Some w ->
  value m + delta < 0 ->
  alterResources r [("morale"%string, delta)] updates
  = Some (<[ resource_path "morale" := JS.clamped (value m + delta) 0 (max m) ]>
            (<[ resource_path "madness" :=
                  JS.clamped (value w + Z.abs (value m + delta)) 0 (max w) ]> updates)).
Proof.
  intros Hm Hw Hneg. simpl. rewrite Hm. simpl.
  replace (Z.min (value m + delta) 0) with (value m + delta) by lia.
  replace (value m + delta =? 0) with false by (symmetry; apply Z.eqb_neq; lia).
  simpl. rewrite Hw. simpl.
  replace (value w - (value m + delta)) with (value w + Z.abs (value m + delta)) by lia.
  reflexivity.
Qed.

(** C1. A change of -9999 to health at 10 of 20 leaves health at 0 and puts
    the 9989 points that health could not take onto wounds once: wounds go
    from 0 to 9989, not to the doubled 19978, although the wounds maximum of
    30000 would hold either; a change of -15 puts 5 on wounds, not 10. *)
Theorem alterResources_overflow_once :
  (exists updates,
     alterResources hurt [("health"%string, -9999)] ∅ = Some updates /\
     value <$> update hurt updates !! "health"%string = Some 0 /\
     value <$> update hurt updates !! "wounds"%string = Some 9989 /\
     value <$> update hurt updates !! "wounds"%string <> Some (2 * 9989)) /\
  (exists updates,
     alterResources hurt [("health"%string, -15)] ∅ = Some updates /\
     value <$> update hurt updates !! "wounds"%string = Some 5 /\
     value <$> update hurt updates !! "wounds"%string <> Some (2 * 5)).
Proof.
  split.
  - eexists. split.
    + apply (alterResources_health_overflow hurt ∅
               {| value := 10; max := 20 |} {| value := 0; max := 30000 |});
        [reflexivity | reflexivity | simpl; lia].
    + unfold update. rewrite !map_lookup_imap. vm_compute.
      split; [reflexivity | split; [reflexivity | discriminate]].
  - eexists. split.
    + apply (alterResources_health_overflow hurt ∅
               {| value := 10; max := 20 |} {| value := 0; max := 30000 |});
        [reflexivity | reflexivity | simpl; lia].
    + unfold update. rewrite !map_lookup_imap. vm_compute.
      split; [reflexivity | discriminate].
Qed.

End ResourcePools.

(** *** Spell cost *)

Section SpellCost.
Import Spell.
Variable super_prepareForActor : SpellActor -> CrucibleSpell -> CrucibleSpell.

Lemma prepareGesture_composition (actor : SpellActor) (spell : CrucibleSpell) :
  composition (prepareGesture actor spell) = composition spell.
Proof.
  unfold prepareGesture.
  repeat match goal with
         | |- context [if ?b then _ else _] => destruct b
         end; reflexivity.
Qed.

Lemma bloodMagic_composition (actor : SpellActor) (spell : CrucibleSpell) :
  composition (bloodMagic actor spell) = composition spell.
Proof. unfold bloodMagic. case_bool_decide; reflexivity. Qed.

(** C8. The cost prepared from the components is the gesture's cost, with
    the inflection's action and focus cost added when there is an
    inflection.  When the spell is prepared for an actor who knows blood
    magic, the focus cost it arrives with is turned into a health cost of 10
    per point and the focus cost becomes 0.  The cost so obtained is kept in
    [_trueCost]; unless the spell is COMPOSED, the action and focus cost on
    display are 0, otherwise the cost on display is the true cost. *)
Theorem spell_cost_spec (actor : SpellActor) (spell : CrucibleSpell) :
  let g := gesture_cost (gesture spell) in
  let e := entering super_prepareForActor actor spell in
  let p := _prepareForActor super_prepareForActor actor spell in
  (inflection spell = None -> prepareCost spell = g) /\
  (forall i : Inflection,
     inflection spell = Some i ->
     action (prepareCost spell) = action g + action (inflection_cost i) /\
     focus (prepareCost spell) = focus g + focus (inflection_cost i) /\
     health (prepareCost spell) = health g) /\
  ("bloodmagic000000"%string ∈ talentIds actor ->
     _trueCost p = Some {| action := action (cost e);
                           focus := 0;
                           health := Some (focus (cost e) * 10) |}) /\
  ("bloodmagic000000"%string ∉ talentIds actor -> _trueCost p = Some (cost e)) /\
  (composition e <> COMPOSED ->
     action (cost p) = 0 /\ focus (cost p) = 0 /\
     (exists c, _trueCost p = Some c /\ health (cost p) = health c)) /\
  (composition e = COMPOSED -> _trueCost p = Some (cost p)).
Proof.
  intros g e p. subst p. unfold _prepareForActor. fold (entering super_prepareForActor actor spell).
  fold e. repeat split.
  - unfold prepareCost. intros ->. reflexivity.
  - unfold prepareCost. rewrite H. reflexivity.
  - unfold prepareCost. rewrite H. reflexivity.
  - unfold prepareCost. rewrite H. reflexivity.
  - intros Hb. unfold zeroCost, bloodMagic.
    rewrite bool_decide_eq_true_2 by exact Hb. simpl.
    destruct (composition e); reflexivity.
  - intros Hb. unfold zeroCost, bloodMagic.
    rewrite bool_decide_eq_false_2 by exact Hb. simpl.
    destruct (composition e); reflexivity.
  - pose proof (bloodMagic_composition actor e) as Hc.
    unfold zeroCost. simpl. rewrite Hc.
    destruct (composition e); [reflexivity | reflexivity | congruence].
  - pose proof (bloodMagic_composition actor e) as Hc.
    unfold zeroCost. simpl. rewrite Hc.
    destruct (composition e); [reflexivity | reflexivity | congruence].
  - pose proof (bloodMagic_composition actor e) as Hc.
    unfold zeroCost. simpl. rewrite Hc.
    destruct (composition e); [| | congruence];
      (eexists; split; [reflexivity | reflexivity]).
  - intros Hcomposed. pose proof (bloodMagic_composition actor e) as Hc.
    unfold zeroCost. simpl. rewrite Hc, Hcomposed. reflexivity.
Qed.

End SpellCost.

Section SpellCostExample.
Import Spell.

Lemma spell_cost_spec_witness :
  action (prepareCost extended_ray) = 3 /\
  focus (prepareCost extended_ray) = 2 /\
  _trueCost (_prepareForActor (fun _ s => s) bloodmage extended_ray)
  = Some {| action := 3; focus := 0; health := Some 20 |} /\
  action (cost (_prepareForActor (fun _ s => s) bloodmage extended_ray)) = 0 /\
  focus (cost (_prepareForActor (fun _ s => s) bloodmage extended_ray)) = 0.
Proof.
  pose proof (spell_cost_spec (fun _ s => s) bloodmage extended_ray) as H.
  cbv zeta in H. destruct H as (_ & Hi & Hb & _ & Hn & _).
  destruct (Hi extend eq_refl) as (Ha & Hf & _).
  destruct Hn as (Hna & Hnf & _); [discriminate |].
  split; [exact Ha | split; [exact Hf | split; [| split; assumption]]].
  apply Hb. exact (proj2 (elem_of_singleton _ _) eq_refl).
Defined.

End SpellCostExample.

(** *** Talents and actions *)

Section TalentPass.
Import Actor.
Variable prepareForActor : CrucibleAction -> CrucibleAction.
Variable UNARMORED_DATA : CrucibleItem.

Lemma touch_is_registered : touch = Some "touch"%string.
Proof. reflexivity. Qed.





(** With a gesture already known, a rune brings no touch along. *)
Lemma prepareTalent_no_touch (st : TalentState) (t : Talent) :
  size (gestures (grimoire st)) <> 0%nat ->
  touch ∉ gestures (grimoire st) ->
  talent_gesture t <> Some "touch"%string ->
  touch ∉ gestures (grimoire (prepareTalent st t)).
Proof.
  intros Hsize Hno Hg. unfold prepareTalent. simpl.
  assert (Hc : forall x : string, x <> "touch"%string -> component GESTURES x <> touch).
  { intros x Hx. unfold component. case_bool_decide; [| discriminate].
    rewrite touch_is_registered. congruence. }
  assert (Hx : component GESTURES (default ""%string (talent_gesture t)) <> touch).
  { apply Hc. destruct (talent_gesture t) as [x |]; simpl; [congruence | discriminate]. }
  destruct (truthy (talent_rune t)); simpl;
    [rewrite bool_decide_eq_false_2 by exact Hsize |];
    destruct (truthy (talent_gesture t)), (truthy (talent_inflection t)); simpl;
    rewrite ?elem_of_union, ?elem_of_singleton; intuition congruence.
Qed.


(** Actions in the registry stay there, and every action of a talent gets
    in. *)
Lemma insert_actions_keeps (l : list CrucibleAction)
    (actions : gmap string CrucibleAction) (k : string) :
  is_Some (actions !! k) ->
  is_Some (fold_left (fun acts a => <[ action_id a := prepareForActor a ]> acts)
                     l actions !! k).
Proof.
  revert actions. induction l as [| a l IH]; intros actions Hk; [exact Hk |].
  simpl. apply IH. destruct (decide (action_id a = k)) as [-> | Hne].
  - rewrite lookup_insert_eq. eexists. reflexivity.
  - rewrite lookup_insert_ne by exact Hne. exact Hk.
Qed.




End TalentPass.

Section TalentPassExample.
Import Actor.


End TalentPassExample.

(** *** Standardized item ids *)

Section StandardIds.
Import Utility.
Variable slugify : string -> string.

Lemma length_slice16 (s : string) :
  String.length (slice16 s) = Nat.min 16 (String.length s).
Proof.
  unfold slice16. generalize 16%nat as n. intros n. revert s.
  induction n as [| n IH]; intros [| c s]; simpl; try reflexivity.
  rewrite IH. reflexivity.
Qed.

Lemma length_zeros (n : nat) : String.length (zeros n) = n.
Proof. induction n as [| n IH]; simpl; [reflexivity |]. rewrite IH. reflexivity. Qed.

(** A standardized id has 16 characters, whatever the name. *)
Lemma standardId_length (item : Item) :
  String.length (standardId slugify item) = 16%nat.
Proof.
  unfold standardId, padEnd16.
  rewrite length_append, length_zeros, length_slice16. lia.
Qed.

(** When one of two items already carries the id the other one would get,
    the utility throws and no item is touched. *)
Lemma standardizeItemIds_conflict_detected (i1 i2 : Item) :
  id i1 = standardId slugify i1 ->
  standardId slugify i2 = standardId slugify i1 ->
  id i2 <> id i1 ->
  standardizeItemIds slugify [i1; i2]
  = Thrown (conflict_message (standardId slugify i2)) /\
  survivors [i1; i2] (standardizeItemIds slugify [i1; i2]) = [i1; i2].
Proof.
  intros H1 H2 Hne. unfold standardizeItemIds. simpl.
  rewrite <- H1, String.eqb_refl. rewrite H2, <- H1.
  apply String.eqb_neq in Hne. rewrite Hne.
  rewrite String.eqb_refl. simpl. split; reflexivity.
Qed.

(** C9. Two world items whose names standardize to the same id, neither of
    them carrying that id yet: the utility raises no conflict; it asks for
    both items to be deleted and for two items to be created under one and
    the same id, so neither original is left in the world. *)
Theorem standardizeItemIds_collision (i1 i2 : Item) :
  standardId slugify i1 = standardId slugify i2 ->
  id i1 <> standardId slugify i1 ->
  id i2 <> standardId slugify i2 ->
  standardizeItemIds slugify [i1; i2]
  = Requested [id i1; id i2]
      [ {| id := standardId slugify i1; name := name i1 |};
        {| id := standardId slugify i1; name := name i2 |} ] /\
  survivors [i1; i2] (standardizeItemIds slugify [i1; i2]) = [].
Proof.
  intros Hsame H1 H2. rewrite <- Hsame in H2.
  assert (E : standardizeItemIds slugify [i1; i2]
              = Requested [id i1; id i2]
                  [ {| id := standardId slugify i1; name := name i1 |};
                    {| id := standardId slugify i1; name := name i2 |} ]).
  { unfold standardizeItemIds. simpl. rewrite <- Hsame.
    apply String.eqb_neq in H1, H2. rewrite H1, H2. reflexivity. }
  split; [exact E |]. rewrite E. simpl.
  rewrite !String.eqb_refl. simpl. rewrite orb_true_r. reflexivity.
Qed.

End StandardIds.

Section StandardIdsExample.
Import Utility.

Lemma standardizeItemIds_collision_witness :
  standardId slugify_ascii long_sword = "longsword0000000"%string /\
  standardizeItemIds slugify_ascii [long_sword; longsword_item]
  = Requested ["a1b2c3d4e5f6g7h8"; "h8g7f6e5d4c3b2a1"]%string
      [ {| id := "longsword0000000"; name := "Long Sword" |};
        {| id := "longsword0000000"; name := "longsword" |} ] /\
  survivors [long_sword; longsword_item]
    (standardizeItemIds slugify_ascii [long_sword; longsword_item]) = [].
Proof.
  split; [reflexivity |].
  apply (standardizeItemIds_collision slugify_ascii long_sword longsword_item).
  - reflexivity.
  - vm_compute. discriminate.
  - vm_compute. discriminate.
Defined.

End StandardIdsExample.

(** *** Token engagement *)

Section Engagement.
Import Token.

Lemma eng_set_engaged (c : Canvas) (t a : nat) (e : gset nat) :
  eng (set_engaged c t e) a = if decide (t = a) then e else eng c a.
Proof. unfold eng, set_engaged. simpl. apply lookup_total_insert. Qed.

Lemma eng_notify (c : Canvas) (t a : nat) : eng (notify c t) a = eng c a.
Proof. reflexivity. Qed.

(** Taking an edge away on both sides. *)
Lemma elem_of_disengage (this : nat) (commit : bool) (enemies : gset nat)
    (c : Canvas) (token a b : nat) :
  b ∈ eng (disengage this commit enemies c token) a <->
  b ∈ eng c a /\
  (token ∈ enemies \/ ~ ((a = this /\ b = token) \/ (a = token /\ b = this))).
Proof.
  unfold disengage. case_bool_decide as He; [tauto |].
  match goal with
  | |- context [if ?x then notify ?c' _ else _] =>
      replace (eng (if x then notify c' token else c') a) with (eng c' a)
        by (destruct x; reflexivity)
  end.
  rewrite !eng_set_engaged.
  repeat case_decide; subst; rewrite ?elem_of_difference, ?elem_of_singleton;
    intuition congruence.
Qed.

(** Putting an edge in on both sides. *)
Lemma elem_of_engage (this : nat) (commit : bool) (c : Canvas) (token a b : nat) :
  token ∉ eng c this ->
  b ∈ eng (engage this commit c token) a <->
  b ∈ eng c a \/ (a = this /\ b = token) \/ (a = token /\ b = this).
Proof.
  intros Hnot. unfold engage. rewrite bool_decide_eq_false_2 by exact Hnot.
  match goal with
  | |- context [if ?x then notify ?c' _ else _] =>
      replace (eng (if x then notify c' token else c') a) with (eng c' a)
        by (destruct x; reflexivity)
  end.
  rewrite !eng_set_engaged.
  repeat case_decide; subst; rewrite ?elem_of_union, ?elem_of_singleton;
    intuition congruence.
Qed.

Lemma disengage_symmetric (this : nat) (commit : bool) (enemies : gset nat)
    (c : Canvas) (token : nat) :
  symmetric c -> symmetric (disengage this commit enemies c token).
Proof.
  intros Hs a b. rewrite !elem_of_disengage, (Hs a b). intuition congruence.
Qed.

Lemma engage_symmetric (this : nat) (commit : bool) (c : Canvas) (token : nat) :
  symmetric c -> symmetric (engage this commit c token).
Proof.
  intros Hs. destruct (decide (token ∈ eng c this)) as [Hin | Hnot].
  - unfold engage. rewrite bool_decide_eq_true_2 by exact Hin. exact Hs.
  - intros a b. rewrite !elem_of_engage by exact Hnot. rewrite (Hs a b).
    intuition congruence.
Qed.

Lemma fold_symmetric (step : Canvas -> nat -> Canvas) (l : list nat) (c : Canvas) :
  (forall c t, symmetric c -> symmetric (step c t)) ->
  symmetric c -> symmetric (fold_left step l c).
Proof.
  intros Hstep. revert c. induction l as [| t l IH]; intros c Hs; [exact Hs |].
  simpl. apply IH, Hstep, Hs.
Qed.

(** [updateFlanking] keeps engagement mirrored. *)
Lemma updateFlanking_symmetric (c : Canvas) (this : nat) (commit : bool)
    (enemies : gset nat) :
  symmetric c -> symmetric (updateFlanking c this commit enemies).
Proof.
  intros Hs. unfold updateFlanking.
  match goal with
  | |- symmetric (if ?x then notify ?c' _ else _) =>
      assert (Hc' : symmetric c'); [| destruct x; exact Hc']
  end.
  apply fold_symmetric; [intros; apply engage_symmetric; assumption |].
  apply fold_symmetric; [intros; apply disengage_symmetric; assumption |].
  exact Hs.
Qed.

(** The row of the updated token through the two loops. *)
Lemma fold_disengage_this (this : nat) (commit : bool) (enemies : gset nat)
    (l : list nat) (c : Canvas) (b : nat) :
  b ∈ eng (fold_left (disengage this commit enemies) l c) this <->
  b ∈ eng c this /\ (b ∈ l -> b ∈ enemies).
Proof.
  revert c. induction l as [| t l IH]; intros c.
  - simpl. split; [intros H; split; [exact H | intros Hin; inversion Hin] | tauto].
  - simpl. rewrite IH, elem_of_disengage, elem_of_cons.
    destruct (decide (b = t)) as [-> | Hne]; intuition congruence.
Qed.

Lemma engage_this (this : nat) (commit : bool) (c : Canvas) (token b : nat) :
  b ∈ eng (engage this commit c token) this <-> b ∈ eng c this \/ b = token.
Proof.
  destruct (decide (token ∈ eng c this)) as [Hin | Hnot].
  - unfold engage. rewrite bool_decide_eq_true_2 by exact Hin.
    intuition congruence.
  - rewrite elem_of_engage by exact Hnot. intuition congruence.
Qed.

Lemma fold_engage_this (this : nat) (commit : bool) (l : list nat) (c : Canvas)
    (b : nat) :
  b ∈ eng (fold_left (engage this commit) l c) this <-> b ∈ eng c this \/ b ∈ l.
Proof.
  revert c. induction l as [| t l IH]; intros c.
  - simpl. split; [tauto | intros [H | H]; [exact H | inversion H]].
  - simpl. rewrite IH, engage_this, elem_of_cons. tauto.
Qed.

(** After [updateFlanking] the token is engaged with exactly the enemies
    the update was given. *)
Lemma updateFlanking_engaged (c : Canvas) (this : nat) (commit : bool)
    (enemies : gset nat) :
  eng (updateFlanking c this commit enemies) this = enemies.
Proof.
  apply set_eq. intros b. unfold updateFlanking.
  match goal with
  | |- _ ∈ eng (if ?x then notify ?c' _ else _) _ <-> _ =>
      replace (eng (if x then notify c' this else c') this) with (eng c' this)
        by (destruct x; reflexivity)
  end.
  rewrite fold_engage_this, fold_disengage_this, !elem_of_elements. tauto.
Qed.

(** The deletion loop takes the deleted token out of the sets of the tokens
    it goes through, and nothing else. *)
Lemma elem_of_onDeleteLoop (this : nat) (commit : bool) (tokens : list nat)
    (c c' : Canvas) (a b : nat) :
  onDeleteLoop this commit tokens c = Some c' ->
  b ∈ eng c' a <-> b ∈ eng c a /\ ~ (a ∈ tokens /\ b = this).
Proof.
  revert c. induction tokens as [| t tokens IH]; intros c H.
  - simpl in H. injection H as <-. split; [| tauto].
    intros Hb. split; [exact Hb |]. intros [Hin _]. inversion Hin.
  - simpl in H.
    assert (Hstep : forall c1, eng c1 a = eng (set_engaged c t (eng c t ∖ {[this]})) a ->
              onDeleteLoop this commit tokens c1 = Some c' ->
              b ∈ eng c' a <-> b ∈ eng c a /\ ~ (a ∈ t :: tokens /\ b = this)).
    { intros c1 Hc1 H1. rewrite (IH c1 H1), Hc1, eng_set_engaged, elem_of_cons.
      case_decide; subst; rewrite ?elem_of_difference, ?elem_of_singleton;
        intuition congruence. }
    destruct commit.
    + destruct (hasActor _ t); [| discriminate].
      apply (Hstep (notify (set_engaged c t (eng c t ∖ {[this]})) t));
        [reflexivity | exact H].
    + apply (Hstep (set_engaged c t (eng c t ∖ {[this]})));
        [reflexivity | exact H].
Qed.

(** [_onDelete] keeps engagement mirrored. *)
Lemma onDelete_symmetric (c c' : Canvas) (this : nat) (commit : bool) :
  symmetric c -> _onDelete c this commit = Some c' -> symmetric c'.
Proof.
  intros Hs H. unfold _onDelete in H.
  destruct (onDeleteLoop this commit (elements (eng c this)) c) as [c1 |] eqn:E;
    [| discriminate].
  simpl in H. injection H as <-. intros a b.
  rewrite !eng_set_engaged.
  pose proof (elem_of_onDeleteLoop this commit _ c c1 a b E) as Hab.
  pose proof (elem_of_onDeleteLoop this commit _ c c1 b a E) as Hba.
  rewrite elem_of_elements in Hab, Hba.
  pose proof (Hs a b) as Hsab. pose proof (Hs this a) as Hsa.
  pose proof (Hs this b) as Hsb.
  clear E Hs.
  repeat case_decide; subst; rewrite ?Hab, ?Hba, ?elem_of_empty;
    intuition congruence.
Qed.

(** [_onDelete] goes through unless it has to call the actor of a token
    that has none. *)
Lemma onDelete_total (c : Canvas) (this : nat) (commit : bool) :
  (commit = true -> forall t, t ∈ eng c this -> t ∈ actors c) ->
  is_Some (_onDelete c this commit).
Proof.
  intros Hact. unfold _onDelete.
  assert (Hloop : forall tokens c1,
            actors c1 = actors c ->
            (forall t, t ∈ tokens -> t ∈ eng c this) ->
            is_Some (onDeleteLoop this commit tokens c1)).
  { induction tokens as [| t tokens IH]; intros c1 Ha Hin; [eexists; reflexivity |].
    simpl. destruct commit.
    - unfold hasActor. simpl. rewrite Ha.
      rewrite bool_decide_eq_true_2
        by (apply Hact; [reflexivity | apply Hin; left]).
      apply IH; [exact Ha | intros t' Ht'; apply Hin; right; exact Ht'].
    - apply IH; [exact Ha | intros t' Ht'; apply Hin; right; exact Ht']. }
  destruct (Hloop (elements (eng c this)) c eq_refl) as [c1 ->].
  - intros t Ht. apply elem_of_elements in Ht. exact Ht.
  - eexists. reflexivity.
Qed.

Lemma onCreate_symmetric (c : Canvas) (this : nat) (commit : bool) (drawn : gset nat) :
  symmetric c ->
  (forall t : nat, this ∉ eng c t) ->
  symmetric (_onCreate (_draw c this drawn) this commit).
Proof.
  intros Hs Hfresh. unfold _onCreate, _draw. apply updateFlanking_symmetric.
  intros a b. rewrite !eng_set_engaged.
  pose proof (Hfresh a) as Ha. pose proof (Hfresh b) as Hb.
  pose proof (Hs a b) as Hab. clear Hs Hfresh.
  repeat case_decide; subst; rewrite ?elem_of_empty; intuition congruence.
Qed.

Lemma empty_canvas_symmetric (actors : gset nat) : symmetric (empty_canvas actors).
Proof.
  intros a b. unfold eng, empty_canvas. simpl.
  rewrite !lookup_total_empty. set_solver.
Qed.

(** The loop of [_onDelete] raises exactly when it leaves a canvas behind
    without going through. *)
Lemma onDeleteThrown_iff (this : nat) (commit : bool) (tokens : list nat) (c : Canvas) :
  onDeleteLoop this commit tokens c = None
  <-> is_Some (onDeleteThrown this commit tokens c).
Proof.
  revert c. induction tokens as [| token tokens IH]; intros c; simpl.
  - split; [discriminate | intros [x Hx]; discriminate].
  - destruct commit; [| apply IH].
    destruct (hasActor _ token); [apply IH |].
    split; [intros _; eexists; reflexivity | reflexivity].
Qed.

End Engagement.

Section EngagementFails.
Import Token.

(** C6. Engagement does not always come out mirrored.  Token 1 is drawn next
    to token 2: its set holds 2, and token 2 has not been told.  The update
    that follows finds 2 in the set of 1 already, takes that for no change
    and leaves it there: 2 is engaged by 1 and 1 is not engaged by 2,
    although the engagement computation of 1 includes 2 and the update
    commits.  And when token 1 is deleted on a committing client while it
    is engaged, mutually, with token 2, which has no actor, the handler
    takes 1 out of the set of 2, raises a [TypeError] on the missing actor
    and never clears the set of 1: again 2 is engaged by 1 and 1 is not
    engaged by 2. *)
Theorem engagement_one_sided :
  (2%nat ∈ eng (_onUpdate freshly_drawn 1%nat true {[ 2%nat ]}) 1%nat /\
   1%nat ∉ eng (_onUpdate freshly_drawn 1%nat true {[ 2%nat ]}) 2%nat) /\
  (symmetric unlinked /\
   2%nat ∈ eng unlinked 1%nat /\
   _onDelete unlinked 1%nat true = None /\
   exists c : Canvas,
     onDeleteThrown 1%nat true (elements (eng unlinked 1%nat)) unlinked = Some c /\
     2%nat ∈ eng c 1%nat /\ 1%nat ∉ eng c 2%nat).
Proof.
  assert (Helems : elements (eng unlinked 1%nat) = [2%nat]).
  { unfold unlinked. rewrite updateFlanking_engaged. apply elements_singleton. }
  split; [split | split; [| split; [| split]]].
  - unfold _onUpdate. rewrite updateFlanking_engaged.
    apply elem_of_singleton. reflexivity.
  - apply (bool_decide_unpack _). vm_compute. exact I.
  - apply updateFlanking_symmetric, empty_canvas_symmetric.
  - unfold unlinked. rewrite updateFlanking_engaged.
    apply elem_of_singleton. reflexivity.
  - unfold _onDelete. rewrite Helems. reflexivity.
  - rewrite Helems. eexists. split; [reflexivity |].
    rewrite !eng_set_engaged. simpl. split.
    + unfold unlinked. rewrite updateFlanking_engaged.
      apply elem_of_singleton. reflexivity.
    + rewrite elem_of_difference, elem_of_singleton. tauto.
Qed.

End EngagementFails.

(** ** Further properties of the code *)

(** *** Resource pools: bounds, errors and overwrites *)

Section ResourcePoolsMore.
Import Actor.

Lemma alterResources_pool_bounds_witness :
  exists res', update hurt hurt_updates !! "health"%string = Some res' /\
               max res' = 20 /\ 0 <= value res' <= max res'.
Proof.
  apply (alterResources_pool_bounds hurt [("health"%string, -15)] ∅ hurt_updates
           "health" (-15) (Build_Resource 10 20)).
  - apply clamped_updates_empty.
  - vm_compute. reflexivity.
  - left.
  - reflexivity.
  - simpl. lia.
Defined.



(** One turn of the loop that does not take its pool below zero writes the
    key of that pool and no other. *)
Lemma alterResource_no_overflow (r : gmap string Resource) (updates : gmap string Z)
    (n : string) (delta : Z) (res : Resource) :
  r !! n = Some res ->
  0 <= value res + delta ->
  alterResource r updates (n, delta)
  = Some (<[ resource_path n := JS.clamped (value res + delta) 0 (max res) ]> updates).
Proof.
  intros Hn Hpos. unfold alterResource. rewrite Hn. simpl.
  replace (Z.min (value res + delta) 0) with 0 by lia.
  simpl. rewrite !andb_false_r. reflexivity.
Qed.

Lemma alterResources_cons (r : gmap string Resource) (c : string * Z)
    (cs : list (string * Z)) (updates : gmap string Z) :
  alterResources r (c :: cs) updates
  = alterResource r updates c ≫= alterResources r cs.
Proof. reflexivity. Qed.

(** Changes that leave every pool they name at 0 or above never write to a
    pool they do not name: healing health, or spending action points one
    has, leaves wounds and madness alone. *)
Theorem alterResources_no_overflow_untouched (r : gmap string Resource)
    (changes : list (string * Z)) (updates updates' : gmap string Z) (k : string) :
  (forall n delta, (n, delta) ∈ changes ->
     exists res, r !! n = Some res /\ 0 <= value res + delta) ->
  (forall delta, (k, delta) ∉ changes) ->
  alterResources r changes updates = Some updates' ->
  updates' !! resource_path k = updates !! resource_path k.
Proof.
  revert updates. induction changes as [| [n delta] cs IH]; intros updates Hall Hk H.
  - simpl in H. injection H as <-. reflexivity.
  - rewrite alterResources_cons in H.
    destruct (Hall n delta) as (res & Hn & Hpos); [left |].
    rewrite (alterResource_no_overflow r updates n delta res Hn Hpos) in H.
    simpl in H. rewrite (IH _ (fun n' d' Hin => Hall n' d' (list_elem_of_further _ _ _ Hin))
                            (fun d' Hin => Hk d' (list_elem_of_further _ _ _ Hin)) H).
    apply lookup_insert_ne. intros Heq. apply resource_path_inj in Heq. subst n.
    apply (Hk delta). left.
Qed.

Lemma alterResources_no_overflow_untouched_witness :
  exists updates',
    alterResources hurt [("health"%string, 5); ("morale"%string, -3)] ∅ = Some updates' /\
    updates' !! resource_path "wounds" = None.
Proof.
  eexists. split; [reflexivity |]. pose proof (eq_refl
    (alterResources hurt [("health"%string, 5); ("morale"%string, -3)] ∅)) as H.
  rewrite (alterResources_no_overflow_untouched hurt
             [("health"%string, 5); ("morale"%string, -3)] ∅ _ "wounds").
  - reflexivity.
  - intros n delta Hin. apply elem_of_cons in Hin as [Hin | Hin].
    + injection Hin as -> ->. eexists. split; [reflexivity | simpl; lia].
    + apply list_elem_of_singleton in Hin. injection Hin as -> ->.
      eexists. split; [reflexivity | simpl; lia].
  - intros delta Hin. apply elem_of_cons in Hin as [Hin | Hin]; [discriminate |].
    apply list_elem_of_singleton in Hin. discriminate.
  - exact H.
Defined.

Lemma alterResource_health_overflow (r : gmap string Resource)
    (updates : gmap string Z) (h w : Resource) (delta : Z) :
  r !! "health"%string = Some h ->
  r !! "wounds"%string = Some w ->
  value h + delta < 0 ->
  alterResource r updates ("health"%string, delta)
  = Some (<[ resource_path "health" := JS.clamped (value h + delta) 0 (max h) ]>
            (<[ resource_path "wounds" :=
                  JS.clamped (value w - (value h + delta)) 0 (max w) ]> updates)).
Proof.
  intros Hh Hw Hneg. unfold alterResource. rewrite Hh. simpl.
  replace (Z.min (value h + delta) 0) with (value h + delta) by lia.
  replace (value h + delta =? 0) with false by (symmetry; apply Z.eqb_neq; lia).
  simpl. rewrite Hw. reflexivity.
Qed.

Lemma alterResource_wounds (r : gmap string Resource)
    (updates : gmap string Z) (w : Resource) (delta : Z) :
  r !! "wounds"%string = Some w ->
  alterResource r updates ("wounds"%string, delta)
  = Some (<[ resource_path "wounds" := JS.clamped (value w + delta) 0 (max w) ]> updates).
Proof. intros Hw. unfold alterResource. rewrite Hw. reflexivity. Qed.

(** When one change map takes health below zero and also changes wounds,
    only one of the two values written for wounds survives.  With health
    first, the overflow is overwritten by the plain change to wounds; with
    wounds first, the change to wounds is overwritten by the overflow. *)
Theorem alterResources_wounds_last_write (r : gmap string Resource)
    (updates updates' : gmap string Z) (h w : Resource) (d1 d2 : Z) :
  r !! "health"%string = Some h ->
  r !! "wounds"%string = Some w ->
  value h + d1 < 0 ->
  (alterResources r [("health"%string, d1); ("wounds"%string, d2)] updates = Some updates' ->
     updates' !! resource_path "wounds" = Some (JS.clamped (value w + d2) 0 (max w))) /\
  (alterResources r [("wounds"%string, d2); ("health"%string, d1)] updates = Some updates' ->
     updates' !! resource_path "wounds"
     = Some (JS.clamped (value w - (value h + d1)) 0 (max w))).
Proof.
  intros Hh Hw Hneg. split; intros H; rewrite alterResources_cons in H.
  - rewrite (alterResource_health_overflow r updates h w d1 Hh Hw Hneg) in H.
    cbn [mbind option_bind] in H. rewrite alterResources_cons in H.
    rewrite (alterResource_wounds r _ w d2 Hw) in H.
    simpl in H. injection H as <-. apply lookup_insert_eq.
  - rewrite (alterResource_wounds r _ w d2 Hw) in H.
    cbn [mbind option_bind] in H. rewrite alterResources_cons in H.
    rewrite (alterResource_health_overflow r _ h w d1 Hh Hw Hneg) in H.
    simpl in H. injection H as <-.
    rewrite lookup_insert_ne by (intros Heq; apply resource_path_inj in Heq; discriminate).
    apply lookup_insert_eq.
Qed.

Lemma alterResources_wounds_last_write_witness :
  exists updates',
    alterResources hurt [("health"%string, -15); ("wounds"%string, 1)] ∅ = Some updates' /\
    updates' !! resource_path "wounds" = Some 1.
Proof.
  eexists. split; [reflexivity |].
  apply (proj1 (alterResources_wounds_last_write hurt ∅ _
                  (Build_Resource 10 20) (Build_Resource 0 30000) (-15) 1
                  eq_refl eq_refl ltac:(simpl; lia))).
  reflexivity.
Defined.

End ResourcePoolsMore.

(** *** Defense testing: what each kind of defense can answer *)

Section DefenseTestMore.
Import Actor.

(** A test against physical defense answers HIT, DODGE, PARRY, BLOCK or
    DEFLECT and never EFFECTIVE or RESIST; a test against anything else
    answers EFFECTIVE or RESIST only. *)
Theorem testDefense_result_kinds (d : Defenses) (u : Q) (defenseType : option string)
    (rollTotal : Z) (dc : option Z) (result : RESULT_TYPES) :
  testDefense d u defenseType rollTotal dc = Some result ->
  (defenseType = Some "physical"%string ->
     result <> EFFECTIVE /\ result <> RESIST) /\
  (defenseType <> Some "physical"%string ->
     result = EFFECTIVE \/ result = RESIST).
Proof.
  unfold testDefense. intros H. split; intros Ht.
  - rewrite bool_decide_eq_true_2 in H by exact Ht.
    repeat match type of H with
           | context [if ?b then _ else _] => destruct b
           | context [defense_total d !! ?k] => destruct (defense_total d !! k); simpl in H
           end; try discriminate; injection H as <-; split; discriminate.
  - rewrite bool_decide_eq_false_2 in H by exact Ht.
    destruct (truthy defenseType).
    + destruct (defense_total d !! default ""%string defenseType) as [t |];
        simpl in H; [| discriminate].
      destruct (t <? rollTotal); injection H as <-; tauto.
    + simpl in H. destruct dc as [x |]; [destruct (x <? rollTotal) |];
        injection H as <-; tauto.
Qed.

Lemma testDefense_result_kinds_witness :
  DODGE <> EFFECTIVE /\ DODGE <> RESIST.
Proof.
  apply (testDefense_result_kinds target_defenses (3 # 20)%Q (Some "physical"%string)
           15 None DODGE); reflexivity.
Defined.

(** The block band starts where the dodge band ends, not where the parry
    band ends: a target whose block total does not exceed its parry total is
    never reported as having blocked. *)
Theorem testDefense_block_needs_more_than_parry (d : Defenses) (u : Q)
    (rollTotal : Z) (dc : option Z) (parry block : Z) :
  defense_total d !! "parry"%string = Some parry ->
  defense_total d !! "block"%string = Some block ->
  block <= parry ->
  testDefense d u (Some "physical"%string) rollTotal dc <> Some BLOCK.
Proof.
  intros Hp Hb Hle. unfold testDefense.
  rewrite bool_decide_eq_true_2 by reflexivity.
  destruct (physical d <? rollTotal); [discriminate |].
  destruct (defense_total d !! "dodge"%string) as [dodge |]; [| discriminate].
  simpl. destruct (Qle_bool _ (inject_Z dodge)); [discriminate |].
  rewrite Hp. simpl.
  destruct (Qle_bool _ (inject_Z (dodge + parry))) eqn:Eparry; [discriminate |].
  rewrite Hb. simpl.
  destruct (Qle_bool _ (inject_Z (dodge + block))) eqn:Eblock; [| discriminate].
  exfalso. apply Qle_bool_false in Eparry. apply Qle_bool_iff in Eblock.
  apply Eparry. eapply Qle_trans; [exact Eblock |].
  rewrite <- Zle_Qle. lia.
Qed.

Lemma testDefense_block_needs_more_than_parry_witness :
  testDefense duelist_defenses (9 # 20)%Q (Some "physical"%string) 15 None <> Some BLOCK.
Proof.
  apply (testDefense_block_needs_more_than_parry duelist_defenses _ 15 None 6 2);
    [reflexivity | reflexivity | lia].
Defined.

End DefenseTestMore.

(** *** Effect expiry over time *)

Section EffectExpiryMore.
Import Actor.

(** Expiry is stable: an effect that counts as expired in some round counts
    as expired in every later round, and an effect expired at the start of a
    turn is expired at the end of that turn. *)
Theorem isEffectExpired_stable (uuid : string) (effect : ActiveEffect)
    (round round' : Z) (start : bool) :
  isEffectExpired uuid round effect start = true ->
  round <= round' ->
  isEffectExpired uuid round' effect start = true /\
  isEffectExpired uuid round' effect false = true.
Proof.
  unfold isEffectExpired. intros H Hle.
  destruct (rounds (duration effect)) as [n |]; [| discriminate].
  destruct (bool_decide (origin effect = Some uuid)), start;
    rewrite ?Z.leb_le, ?Z.ltb_lt in *; lia.
Qed.

Lemma isEffectExpired_stable_witness :
  isEffectExpired "Actor.hero" 9 ward true = true /\
  isEffectExpired "Actor.hero" 9 ward false = true.
Proof.
  apply (isEffectExpired_stable "Actor.hero" ward 5 9 true); [reflexivity | lia].
Defined.

End EffectExpiryMore.

(** *** Ability purchases after level 0 *)

Section AbilityPurchaseMore.
Import Actor.

(** Past level 0, for a known ability: an increase is refused when the
    ability value is 12 or no ability point is available, a decrease is
    refused when the ability was never increased, and every other increase
    or decrease is allowed; the base value and the point pool play no
    part. *)
Theorem canPurchaseAbility_leveled (actor : AbilityActor) (ability : string)
    (a : Ability) (delta : Z) :
  isL0 actor = false ->
  abilities actor !! ability = Some a ->
  (0 < delta ->
     (canPurchaseAbility actor ability delta = Some false
      <-> ability_value a = 12 \/ ability_available (ability_points actor) = 0) /\
     (canPurchaseAbility actor ability delta = Some true
      <-> ability_value a <> 12 /\ ability_available (ability_points actor) <> 0)) /\
  (delta < 0 ->
     (canPurchaseAbility actor ability delta = Some false <-> increases a = 0) /\
     (canPurchaseAbility actor ability delta = Some true <-> increases a <> 0)).
Proof.
  intros HL Ha. unfold canPurchaseAbility, JS.sign, JS.falsy. rewrite Ha, HL.
  split; intros Hd.
  - rewrite (Z.sgn_pos delta Hd). simpl.
    destruct (Z.eqb_spec (ability_value a) 12) as [E1 | E1];
      destruct (Z.eqb_spec (ability_available (ability_points actor)) 0) as [E2 | E2];
      simpl; split; split; intros H; try discriminate; try tauto; try reflexivity;
      destruct H; congruence.
  - rewrite (Z.sgn_neg delta Hd). simpl.
    destruct (Z.eqb_spec (increases a) 0) as [E | E];
      split; split; intros H; try discriminate; try tauto; try reflexivity; congruence.
Qed.

Lemma canPurchaseAbility_leveled_witness :
  canPurchaseAbility veteran "strength" 1 = Some false /\
  canPurchaseAbility veteran "strength" (-1) = Some true.
Proof.
  pose proof (canPurchaseAbility_leveled veteran "strength"
                {| base := 3; increases := 2; ability_value := 12 |}) as H.
  split.
  - destruct (H 1 eq_refl eq_refl) as [H1 _].
    apply (proj1 (H1 ltac:(lia))). left. reflexivity.
  - destruct (H (-1) eq_refl eq_refl) as [_ H2].
    apply (proj2 (H2 ltac:(lia))). simpl. lia.
Defined.

End AbilityPurchaseMore.

(** *** Token engagement: locality, deletion and commits *)

Section EngagementMore.
Import Token.

Lemma fold_disengage_others (this : nat) (commit : bool) (enemies : gset nat)
    (l : list nat) (c : Canvas) (a b : nat) :
  a <> this -> b <> this ->
  b ∈ eng (fold_left (disengage this commit enemies) l c) a <-> b ∈ eng c a.
Proof.
  intros Ha Hb. revert c. induction l as [| t l IH]; intros c; [reflexivity |].
  simpl. rewrite IH, elem_of_disengage. intuition congruence.
Qed.

Lemma fold_engage_others (this : nat) (commit : bool) (l : list nat) (c : Canvas)
    (a b : nat) :
  a <> this -> b <> this ->
  b ∈ eng (fold_left (engage this commit) l c) a <-> b ∈ eng c a.
Proof.
  intros Ha Hb. revert c. induction l as [| t l IH]; intros c; [reflexivity |].
  simpl. rewrite IH. destruct (decide (t ∈ eng c this)) as [Hin | Hnot].
  - unfold engage. rewrite bool_decide_eq_true_2 by exact Hin. reflexivity.
  - rewrite elem_of_engage by exact Hnot. intuition congruence.
Qed.

(** [updateFlanking] on a token only adds or removes edges that token is an
    end of: whether B is in the engaged set of A, for two other tokens A
    and B, is left as it was. *)
Theorem updateFlanking_local (c : Canvas) (this : nat) (commit : bool)
    (enemies : gset nat) (a b : nat) :
  a <> this -> b <> this ->
  b ∈ eng (updateFlanking c this commit enemies) a <-> b ∈ eng c a.
Proof.
  intros Ha Hb. unfold updateFlanking.
  match goal with
  | |- _ ∈ eng (if ?x then notify ?c' _ else _) _ <-> _ =>
      replace (eng (if x then notify c' this else c') a) with (eng c' a)
        by (destruct x; reflexivity)
  end.
  rewrite fold_engage_others, fold_disengage_others by assumption. reflexivity.
Qed.

Lemma updateFlanking_local_witness :
  3%nat ∈ eng (updateFlanking skirmish 1%nat true ∅) 2%nat <-> 3%nat ∈ eng skirmish 2%nat.
Proof.
  apply (updateFlanking_local skirmish 1%nat true ∅ 2%nat 3%nat); discriminate.
Defined.

(** Once [_onDelete] has gone through on a canvas with mirrored engagement,
    the deleted token is engaged with nobody and is in nobody's engaged
    set. *)
Theorem onDelete_forgets (c c' : Canvas) (this : nat) (commit : bool) :
  symmetric c ->
  _onDelete c this commit = Some c' ->
  eng c' this = ∅ /\ forall t : nat, this ∉ eng c' t.
Proof.
  intros Hs H. unfold _onDelete in H.
  destruct (onDeleteLoop this commit (elements (eng c this)) c) as [c1 |] eqn:E;
    [| discriminate].
  simpl in H. injection H as <-. split.
  - rewrite eng_set_engaged. case_decide; [reflexivity | congruence].
  - intros t. rewrite eng_set_engaged. case_decide; [apply not_elem_of_empty |].
    rewrite (elem_of_onDeleteLoop this commit _ c c1 t this E), elem_of_elements.
    intros [Hin Hnot]. apply Hnot. split; [apply Hs, Hin | reflexivity].
Qed.

Lemma onDelete_forgets_witness :
  exists c', _onDelete skirmish 1%nat true = Some c' /\
             eng c' 1%nat = ∅ /\ forall t : nat, 1%nat ∉ eng c' t.
Proof.
  destruct (onDelete_total skirmish 1%nat true) as [c' Hc'].
  - intros _ t Ht. unfold skirmish in Ht. rewrite updateFlanking_engaged in Ht.
    apply elem_of_singleton in Ht. subst t.
    apply elem_of_union. right. apply elem_of_singleton. reflexivity.
  - exists c'. split; [exact Hc' |].
    apply (onDelete_forgets skirmish c' 1%nat true); [| exact Hc'].
    apply updateFlanking_symmetric, empty_canvas_symmetric.
Defined.





(** A client that does not commit never calls an actor: [updateFlanking]
    and [_onDelete] leave the record of flanking updates as it was. *)
Theorem handlers_without_commit (c : Canvas) (this : nat) (enemies : gset nat) :
  flanking (updateFlanking c this false enemies) = flanking c /\
  (forall c', _onDelete c this false = Some c' -> flanking c' = flanking c).
Proof.
  split.
  - unfold updateFlanking. simpl.
    assert (H1 : forall l c0,
              flanking (fold_left (disengage this false enemies) l c0) = flanking c0).
    { induction l as [| t l IH]; intros c0; [reflexivity |].
      simpl. rewrite IH. unfold disengage. case_bool_decide; reflexivity. }
    assert (H2 : forall l c0,
              flanking (fold_left (engage this false) l c0) = flanking c0).
    { induction l as [| t l IH]; intros c0; [reflexivity |].
      simpl. rewrite IH. unfold engage. case_bool_decide; reflexivity. }
    rewrite H2, H1. reflexivity.
  - intros c' H. unfold _onDelete in H.
    destruct (onDeleteLoop this false (elements (eng c this)) c) as [c1 |] eqn:E;
      [| discriminate].
    simpl in H. injection H as <-. simpl.
    revert E. generalize (elements (eng c this)). intros l. revert c.
    induction l as [| t l IH]; intros c E.
    + simpl in E. injection E as <-. reflexivity.
    + simpl in E. rewrite (IH _ E). reflexivity.
Qed.

End EngagementMore.

(** *** Standardized ids: length and idempotence *)

Section StandardIdsMore.
Import Utility.
Variable slugify : string -> string.

Lemma standardizeLoop_standard (world items : list Item)
    (deletions : list string) (creations : list Item) :
  (forall item, item ∈ items -> id item = standardId slugify item) ->
  standardizeLoop slugify world items deletions creations
  = Requested deletions creations.
Proof.
  induction items as [| item items IH]; intros Hall; [reflexivity |].
  simpl. rewrite <- (Hall item) by left. rewrite String.eqb_refl.
  apply IH. intros item' Hin. apply Hall. right. exact Hin.
Qed.

(** On a world whose items all carry their standardized id already, the
    utility asks for nothing to be deleted or created and every item
    stays. *)
Theorem standardizeItemIds_idempotent (world : list Item) :
  (forall item, item ∈ world -> id item = standardId slugify item) ->
  standardizeItemIds slugify world = Requested [] [] /\
  survivors world (standardizeItemIds slugify world) = world.
Proof.
  intros Hall. unfold standardizeItemIds.
  rewrite (standardizeLoop_standard world world [] [] Hall). split; [reflexivity |].
  simpl. induction world as [| item world IH]; [reflexivity |].
  simpl. f_equal. apply IH. intros item' Hin. apply Hall. right. exact Hin.
Qed.

Lemma standardizeLoop_requests (world items : list Item)
    (deletions deletions' : list string) (creations creations' : list Item) :
  standardizeLoop slugify world items deletions creations
  = Requested deletions' creations' ->
  length deletions = length creations ->
  Forall (fun item => String.length (id item) = 16%nat) creations ->
  length deletions' = length creations' /\
  Forall (fun item => String.length (id item) = 16%nat) creations'.
Proof.
  revert deletions creations.
  induction items as [| item items IH]; intros deletions creations H Hlen Hall.
  - simpl in H. injection H as <- <-. split; assumption.
  - simpl in H. destruct (String.eqb (id item) (standardId slugify item)).
    + apply (IH _ _ H Hlen Hall).
    + destruct (has world (standardId slugify item)); [discriminate |].
      apply (IH _ _ H).
      * rewrite !length_app. simpl. lia.
      * apply Forall_app. split; [exact Hall |].
        constructor; [| constructor]. simpl. apply standardId_length.
Qed.

(** Whenever the utility gets to its requests, it asks for as many items to
    be created as to be deleted, and every item to be created has an id of
    16 characters. *)
Theorem standardizeItemIds_requests (world : list Item)
    (deletions : list string) (creations : list Item) :
  standardizeItemIds slugify world = Requested deletions creations ->
  length deletions = length creations /\
  Forall (fun item => String.length (id item) = 16%nat) creations.
Proof.
  intros H.
  apply (standardizeLoop_requests world world [] deletions [] creations H);
    [reflexivity | constructor].
Qed.

End StandardIdsMore.

Section StandardIdsMoreExample.
Import Utility.

Lemma standardizeItemIds_idempotent_witness :
  standardizeItemIds slugify_ascii [standard_sword] = Requested [] [] /\
  survivors [standard_sword] (standardizeItemIds slugify_ascii [standard_sword])
  = [standard_sword].
Proof.
  apply (standardizeItemIds_idempotent slugify_ascii [standard_sword]).
  intros item Hin. apply list_elem_of_singleton in Hin. subst item. reflexivity.
Defined.

Lemma standardizeItemIds_requests_witness :
  Forall (fun item => String.length (id item) = 16%nat)
    [ {| id := "longsword0000000"; name := "Long Sword" |};
      {| id := "longsword0000000"; name := "longsword" |} ].
Proof.
  apply (standardizeItemIds_requests slugify_ascii [long_sword; longsword_item]
           ["a1b2c3d4e5f6g7h8"; "h8g7f6e5d4c3b2a1"]%string).
  reflexivity.
Defined.

End StandardIdsMoreExample.

(** *** Talents and actions: the grimoire and the default actions *)

Section TalentPassMore.
Import Actor.
Variable prepareForActor : CrucibleAction -> CrucibleAction.
Variable UNARMORED_DATA : CrucibleItem.






Lemma fold_addTalentActions_keeps (talent : list Talent)
    (actions : gmap string CrucibleAction) (k : string) :
  is_Some (actions !! k) ->
  is_Some (fold_left (addTalentActions prepareForActor) talent actions !! k).
Proof.
  revert actions. induction talent as [| t talent IH]; intros actions Hk; [exact Hk |].
  simpl. apply IH. unfold addTalentActions. apply insert_actions_keeps, Hk.
Qed.



(** Moving, defending, delaying, the disengagement strike, recovering,
    refocusing and striking are open to every actor, whatever its talents;
    reloading is there whenever the equipped weapons call for it. *)
Theorem default_actions_available (g : Grimoire) (reload : bool) (talent : list Talent)
    (k : string) :
  k ∈ ["move"; "defend"; "delay"; "disengagementStrike"; "recover"; "refocus";
       "strike"]%string \/ (reload = true /\ k = "reload"%string) ->
  is_Some (_prepareActions prepareForActor g reload talent !! k).
Proof.
  intros Hk. unfold _prepareActions. apply fold_addTalentActions_keeps.
  unfold DEFAULT_ACTIONS, addDefaultAction. simpl.
  destruct Hk as [Hk | [-> ->]].
  - repeat (apply elem_of_cons in Hk as [-> | Hk]);
      [ .. | inversion Hk ];
      destruct (size (gestures g) =? 0)%nat, (size (runes g) =? 0)%nat, reload; simpl;
      repeat (rewrite lookup_insert_ne by discriminate);
      rewrite lookup_insert_eq; eexists; reflexivity.
  - destruct (size (gestures g) =? 0)%nat, (size (runes g) =? 0)%nat; simpl;
      repeat (rewrite lookup_insert_ne by discriminate);
      rewrite lookup_insert_eq; eexists; reflexivity.
Qed.

End TalentPassMore.

Section TalentPassMoreExample.
Import Actor.


Lemma default_actions_available_witness :
  is_Some (prep_actions overspent !! "strike"%string).
Proof.
  apply (default_actions_available (fun a => a) _ false
           [resilient; pyromancer; pugilist] "strike").
  left. repeat first [left | right].
Defined.

End TalentPassMoreExample.

(** *** Purchases: abilities and skills *)

Section Purchases.
Import Actor Advancement.

(** An ability purchase that goes through changes one number by exactly
    one step and keeps it in range: at level 0 the base value, which stays
    between 0 and 3; later the number of increases, which stays at 0 or
    above. *)
Theorem purchaseAbility_in_range (actor : AbilityActor) (ability : string)
    (a : Ability) (delta : Z) (changes : list (string * option Z)) :
  abilities actor !! ability = Some a ->
  purchaseAbility actor ability delta = Update changes ->
  (isL0 actor = true -> 0 <= base a <= 3 ->
     exists v, changes = [(ability_path ability "base", Some v)] /\
               0 <= v <= 3 /\ Z.abs (v - base a) = 1) /\
  (isL0 actor = false -> 0 <= increases a ->
     exists v, changes = [(ability_path ability "increases", Some v)] /\
               0 <= v /\ Z.abs (v - increases a) = 1).
Proof.
  intros Ha H. unfold purchaseAbility, canPurchaseAbility, JS.sign, JS.falsy in H.
  rewrite Ha in H.
  destruct (Z.sgn_spec delta) as [[Hd Hs] | [[Hd Hs] | [Hd Hs]]]; rewrite Hs in H;
    simpl in H; try discriminate.
  - destruct (isL0 actor) eqn:HL.
    + destruct (Z.eqb_spec (base a) 3) as [E | E]; simpl in H; [discriminate |].
      destruct (pool (ability_points actor) =? 0); simpl in H; [discriminate |].
      injection H as <-. split; [| discriminate].
      intros _ Hb. eexists. split; [reflexivity |]. lia.
    + destruct (ability_value a =? 12); simpl in H; [discriminate |].
      destruct (ability_available (ability_points actor) =? 0); simpl in H;
        [discriminate |].
      injection H as <-. split; [discriminate |].
      intros _ Hi. eexists. split; [reflexivity |]. lia.
  - destruct (isL0 actor) eqn:HL.
    + destruct (Z.eqb_spec (base a) 0) as [E | E]; simpl in H; [discriminate |].
      injection H as <-. split; [| discriminate].
      intros _ Hb. eexists. split; [reflexivity |]. lia.
    + destruct (Z.eqb_spec (increases a) 0) as [E | E]; simpl in H; [discriminate |].
      injection H as <-. split; [discriminate |].
      intros _ Hi. eexists. split; [reflexivity |]. lia.
Qed.

Lemma purchaseAbility_in_range_witness :
  exists v, [(ability_path "strength" "base", Some 2)]
            = [(ability_path "strength" "base", Some v)] /\
            0 <= v <= 3 /\ Z.abs (v - 3) = 1.
Proof.
  apply (proj1 (purchaseAbility_in_range novice "strength"
                  {| base := 3; increases := 0; ability_value := 3 |} (-1)
                  [(ability_path "strength" "base", Some 2)] eq_refl eq_refl));
    [reflexivity | simpl; lia].
Defined.

(** The strict and the plain mode of the skill test agree: one says yes
    exactly when the other does, the plain mode throws nothing but the
    [TypeError] of a missing ancestry or background, and whenever the
    strict mode throws anything else the plain mode answers no. *)
Theorem canPurchaseSkill_modes (actor : SkillActor) (skillId : string) (delta : Z) :
  (canPurchaseSkill actor skillId delta true = Answer true
   <-> canPurchaseSkill actor skillId delta false = Answer true) /\
  (forall m, canPurchaseSkill actor skillId delta false = Thrown m ->
             m = "TypeError"%string) /\
  (forall m, canPurchaseSkill actor skillId delta true = Thrown m ->
             m = "TypeError"%string \/
             canPurchaseSkill actor skillId delta false = Answer false).
Proof.
  unfold canPurchaseSkill, refuse.
  destruct (skills actor !! skillId) as [sk |];
    [| repeat split; intros; discriminate].
  repeat match goal with
         | |- context [if ?b then _ else _] => destruct b
         | |- context [match ?x with Some _ => _ | None => _ end] => destruct x
         end;
    (split; [split; intros H; first [exact H | discriminate | reflexivity]
            | split; intros m H; try discriminate; try (injection H as <-);
              first [reflexivity | left; reflexivity | right; reflexivity] ]).
Qed.

(** A skill purchase that goes through moves the rank by at most one step
    and keeps it between 0 and 5; whenever the new rank is 3, the same
    update clears the specialization path. *)
Theorem purchaseSkill_in_range (actor : SkillActor) (skillId : string)
    (skill : Skill) (delta : Z) (changes : list (string * option Z)) :
  skills actor !! skillId = Some skill ->
  0 <= rank skill <= 5 ->
  purchaseSkill actor skillId delta = Update changes ->
  exists r, head changes = Some (skill_path skillId "rank", Some r) /\
            0 <= r <= 5 /\ Z.abs (r - rank skill) <= 1 /\
            (r = 3 <-> (skill_path skillId "path", None) ∈ changes).
Proof.
  intros Hs Hr H. unfold purchaseSkill in H. rewrite Hs in H.
  destruct (canPurchaseSkill actor skillId (JS.sign delta) true) as [b | m] eqn:Ecan;
    [| discriminate].
  injection H as <-.
  assert (Hpath : forall r : Z,
            r = 3 <-> (skill_path skillId "path", @None Z)
                      ∈ (skill_path skillId "rank", Some r)
                        :: (if r =? 3 then [(skill_path skillId "path", None)] else [])).
  { intros r. destruct (Z.eqb_spec r 3) as [E | E]; split; intros H'; try congruence.
    - right. left.
    - exfalso. apply elem_of_cons in H' as [H' | H'];
        [discriminate H' | inversion H']. }
  assert (Hrange : 0 <= rank skill + JS.sign delta <= 5 /\
                   Z.abs (rank skill + JS.sign delta - rank skill) <= 1).
  { unfold canPurchaseSkill, refuse, JS.sign in *. rewrite Hs in Ecan.
    rewrite Z.sgn_sgn in Ecan.
    destruct (Z.sgn_spec delta) as [[Hd Hsg] | [[Hd Hsg] | [Hd Hsg]]];
      rewrite Hsg in *; simpl in Ecan; [| lia |];
      repeat match type of Ecan with
             | context [match ?x with Some _ => _ | None => _ end] =>
                 destruct x; simpl in Ecan
             | context [if negb ?b then _ else _] => destruct b; simpl in Ecan
             | context [if (?x =? ?y) && _ then _ else _] =>
                 destruct (Z.eqb_spec x y); simpl in Ecan
             | context [if ?x =? ?y then _ else _] =>
                 destruct (Z.eqb_spec x y); simpl in Ecan
             | context [if ?x <? ?y then _ else _] =>
                 destruct (Z.ltb_spec x y); simpl in Ecan
             end; try discriminate; lia. }
  exists (rank skill + JS.sign delta).
  split; [reflexivity | split; [apply Hrange | split; [apply Hrange | apply Hpath]]].
Qed.

Lemma purchaseSkill_in_range_witness :
  exists r, head [(skill_path "stealth" "rank", Some 3);
                  (skill_path "stealth" "path", @None Z)]
            = Some (skill_path "stealth" "rank", Some r) /\
            0 <= r <= 5 /\ Z.abs (r - 2) <= 1 /\
            (r = 3 <-> (skill_path "stealth" "path", None)
                       ∈ [(skill_path "stealth" "rank", Some 3);
                          (skill_path "stealth" "path", @None Z)]).
Proof.
  apply (purchaseSkill_in_range apprentice "stealth" stealth2 1); 
    [reflexivity | simpl; lia | reflexivity].
Defined.

(** Raising a skill to rank 3 clears its path, so the next raise is turned
    down until a path is chosen, whatever points are left and whatever the
    next rank costs. *)
Theorem purchaseSkill_rank3_needs_path (actor : SkillActor) (skillId : string)
    (skill : Skill) (delta : Z) (changes : list (string * option Z))
    (next_cost available' : Z) :
  skills actor !! skillId = Some skill ->
  purchaseSkill actor skillId delta = Update changes ->
  rank skill + Z.sgn delta = 3 ->
  let actor' := {| skills := <[ skillId := purchased skill skillId changes next_cost ]>
                               (skills actor);
                   ancestry := ancestry actor;
                   background := background actor;
                   skill_available := available' |} in
  canPurchaseSkill actor' skillId 1 false <> Answer true /\
  canPurchaseSkill actor' skillId 1 true <> Answer true.
Proof.
  intros Hs H H3 actor'. unfold purchaseSkill in H. rewrite Hs in H.
  destruct (canPurchaseSkill actor skillId (JS.sign delta) true); [| discriminate].
  injection H as <-. unfold JS.sign in *.
  assert (Hsk : skills actor' !! skillId
                = Some {| rank := 3; path := None; cost := next_cost |}).
  { subst actor'. simpl. rewrite lookup_insert_eq. unfold purchased.
    rewrite H3. simpl. rewrite !String.eqb_refl. simpl.
    rewrite orb_true_r. reflexivity. }
  unfold canPurchaseSkill, refuse. rewrite Hsk. simpl.
  destruct (ancestry actor) as [[x |] |], (background actor) as [[y |] |]; simpl;
    repeat match goal with
           | |- context [if ?b then _ else _] => destruct b; simpl
           end; split; discriminate.
Qed.

Lemma purchaseSkill_rank3_needs_path_witness :
  canPurchaseSkill apprentice3 "stealth" 1 false <> Answer true /\
  canPurchaseSkill apprentice3 "stealth" 1 true <> Answer true.
Proof.
  apply (purchaseSkill_rank3_needs_path apprentice "stealth" stealth2 1
           [(skill_path "stealth" "rank", Some 3);
            (skill_path "stealth" "path", None)] 4 2);
    reflexivity.
Defined.

End Purchases.

(** *** Ability bonus, boons and banes *)

Section RollsFacts.
Import Actor Rolls.

Lemma ability_sum_bounds (abilities : gmap string Ability) (scaling : list string)
    (x s lo hi : Z) :
  ability_sum abilities scaling x = Some s ->
  (forall t a, t ∈ scaling -> abilities !! t = Some a -> lo <= ability_value a <= hi) ->
  x + Z.of_nat (length scaling) * lo <= s <= x + Z.of_nat (length scaling) * hi.
Proof.
  revert x. induction scaling as [| t scaling IH]; intros x H Hall.
  - simpl in H. injection H as <-. simpl. lia.
  - simpl in H. destruct (abilities !! t) as [a |] eqn:Ha; [| discriminate].
    simpl in H. specialize (IH _ H (fun t' a' Hin => Hall t' a' (list_elem_of_further _ _ _ Hin))).
    specialize (Hall t a (list_elem_of_here _ _) Ha).
    rewrite length_cons, Nat2Z.inj_succ. nia.
Qed.

(** The ability bonus is a rounded-up average: it lies between the smallest
    and the largest of the ability values it is taken from. *)
Theorem getAbilityBonus_between (abilities : gmap string Ability)
    (scaling : list string) (lo hi : Z) (bonus : JSNumber) :
  scaling <> [] ->
  (forall t a, t ∈ scaling -> abilities !! t = Some a -> lo <= ability_value a <= hi) ->
  getAbilityBonus abilities scaling = Some bonus ->
  exists b, bonus = Number b /\ lo <= b <= hi.
Proof.
  intros Hne Hall H. unfold getAbilityBonus in H.
  destruct (ability_sum abilities scaling 0) as [s |] eqn:Hs; [| discriminate].
  cbv [mbind option_bind] in H. destruct scaling as [| t scaling]; [congruence |].
  injection H as <-. eexists. split; [reflexivity |].
  pose proof (ability_sum_bounds _ _ _ _ lo hi Hs Hall) as Hb.
  set (n := Z.of_nat (length (t :: scaling))) in *.
  assert (Hn : 0 < n).
  { subst n. rewrite length_cons, Nat2Z.inj_succ.
    pose proof (Nat2Z.is_nonneg (length scaling)) as Hnn. clear - Hnn. lia. }
  unfold ceil_div. change (Z.of_nat (S (length scaling))) with n. split.
  - assert (- s / n <= - lo); [| lia].
    apply Z.div_le_upper_bound; [exact Hn | nia].
  - assert (- hi <= - s / n); [| lia].
    apply Z.div_le_lower_bound; [exact Hn | nia].
Qed.

Lemma getAbilityBonus_between_witness :
  exists b, Number 4 = Number b /\ 2 <= b <= 5.
Proof.
  apply (getAbilityBonus_between fit ["strength"; "dexterity"]%string 2 5 (Number 4)).
  - discriminate.
  - intros t a Hin Ha. apply elem_of_cons in Hin as [-> | Hin].
    + vm_compute in Ha. injection Ha as <-. simpl. lia.
    + apply list_elem_of_singleton in Hin. subst t. vm_compute in Ha.
      injection Ha as <-. simpl. lia.
  - reflexivity.
Defined.



(** Boons stay between 0 and 3 and banes between 0 and 2.  Banes come only
    from a guarded target under a physical attack; against any other
    defense the most an attacker gets is the single boon for striking
    first, and that one needs both sides to be in the encounter. *)
Theorem getTargetBoons_bounds (this target : BoonActor) (defenseType : DefenseArg) :
  let boons := fst (getTargetBoons this target defenseType) in
  let banes := snd (getTargetBoons this target defenseType) in
  0 <= boons <= 3 /\ 0 <= banes <= 2 /\
  (0 < banes <-> defenseType = DefenseName "physical" /\
                 "guarded"%string ∈ boon_statuses target) /\
  (defenseType <> DefenseName "physical" -> boons <= 1) /\
  (combatant this = None \/ combatant target = None ->
   boons = if bool_decide (defenseType = DefenseName "physical")
              && bool_decide ("exposed"%string ∈ boon_statuses target)
           then 2 else 0).
Proof.
  assert (Hi : combatant this = None \/ combatant target = None ->
               initiative_gt (combatant this) (combatant target) = false).
  { intros [-> | ->]; [reflexivity |]. destruct (combatant this); reflexivity. }
  unfold getTargetBoons. cbv zeta.
  destruct (initiative_gt (combatant this) (combatant target)).
  - repeat case_bool_decide; destruct (boon_shield target); cbn;
      (split; [lia |]); (split; [lia |]);
      (split; [split; intros; first [lia | tauto | exfalso; lia] |]);
      (split; [intros; first [lia | tauto] | intros Hc; specialize (Hi Hc); discriminate]).
  - repeat case_bool_decide; destruct (boon_shield target); cbn;
      (split; [lia |]); (split; [lia |]);
      (split; [split; intros; first [lia | tauto | exfalso; lia] |]);
      (split; [intros; first [lia | tauto] | intros; reflexivity]).
Qed.

End RollsFacts.

(** *** Damage and rest *)

Section DamageFacts.
Import Actor Rolls.

Lemma damageTotal_pool_sum (resources : list (string * Z)) :
  damageTotal resources = - pool_sum resources.
Proof.
  unfold damageTotal.
  assert (H : forall t, fold_left (fun t d => t - snd d) resources t = t - pool_sum resources).
  { induction resources as [| d resources IH]; intros t; simpl; [lia |].
    rewrite IH. lia. }
  rewrite H. lia.
Qed.

Lemma pool_sum_add_to (resources : list (string * Z)) (k : string) (x : Z) :
  pool_sum (add_to resources k x) = pool_sum resources + x.
Proof.
  induction resources as [| [k' v] resources IH]; simpl; [lia |].
  destruct (String.eqb k' k); simpl; lia.
Qed.

Lemma rollChange_signed (reverse : bool) (roll : AttackRoll) :
  rollChange reverse roll =
    (rollResource roll, (if reverse then 1 else -1) * signedDamage roll).
Proof.
  unfold rollChange, rollResource, signedDamage.
  destruct (roll_damage roll) as [d |]; simpl.
  - destruct (dmg_total d), (dmg_healing d), reverse; simpl; f_equal; lia.
  - destruct reverse; reflexivity.
Qed.

Lemma damageTotal_damageSum (rolls : list AttackRoll) (reverse : bool) :
  damageTotal (damageResources rolls reverse) =
    (if reverse then -1 else 1) * damageSum rolls.
Proof.
  rewrite damageTotal_pool_sum. unfold damageResources, damageSum.
  assert (H : forall resources,
             pool_sum (fold_left (fun resources roll =>
                                    add_to resources (fst (rollChange reverse roll))
                                           (snd (rollChange reverse roll)))
                                 rolls resources)
             = pool_sum resources
               + (if reverse then 1 else -1)
                 * fold_right (fun roll t => signedDamage roll + t) 0 rolls).
  { induction rolls as [| roll rolls IH]; intros resources;
      cbn [fold_left fold_right]; [lia |].
    rewrite IH, pool_sum_add_to, rollChange_signed. cbn [snd]. destruct reverse; lia. }
  rewrite H. simpl. destruct reverse; lia.
Qed.

(** The total of a damage outcome is the damage of all rolls minus their
    healing, whichever pools the rolls are aimed at; reversing the damage
    gives the opposite number. *)
Theorem dealDamage_total (r r' : gmap string Resource) (rolls : list AttackRoll)
    (reverse : bool) (o : DamageOutcome) :
  dealDamage r rolls reverse = Some (o, r') ->
  out_total o = (if reverse then -1 else 1) * damageSum rolls.
Proof.
  intros H. unfold dealDamage in H.
  destruct (isIncapacitated r); [| discriminate]. cbn [mbind option_bind] in H.
  destruct (isBroken r); [| discriminate]. cbn [mbind option_bind] in H.
  destruct (alterResources r (damageResources rolls reverse) ∅) as [updates |];
    [| discriminate].
  cbn [mbind option_bind] in H.
  destruct (isIncapacitated (update r updates)); [| discriminate].
  cbn [mbind option_bind] in H.
  destruct (isBroken (update r updates)); [| discriminate].
  cbn [mbind option_bind] in H. injection H as <- _. cbn [out_total].
  apply damageTotal_damageSum.
Qed.

Lemma dealDamage_total_witness :
  exists o r', dealDamage frail [hit12; heal4] false = Some (o, r') /\ out_total o = 8.
Proof.
  eexists _, _. split; [vm_compute; reflexivity |].
  exact (dealDamage_total frail _ [hit12; heal4] false _ eq_refl).
Defined.

Lemma damageResources_health (rolls : list AttackRoll) (roll : AttackRoll) :
  Forall (fun roll => rollResource roll = "health"%string) (roll :: rolls) ->
  damageResources (roll :: rolls) false =
    [("health"%string, - damageSum (roll :: rolls))].
Proof.
  intros Hall. unfold damageResources, damageSum.
  assert (H : forall x,
             Forall (fun roll => rollResource roll = "health"%string) rolls ->
             fold_left (fun resources roll =>
                          add_to resources (fst (rollChange false roll))
                                 (snd (rollChange false roll)))
                       rolls [("health"%string, x)]
             = [("health"%string,
                 x - fold_right (fun roll t => signedDamage roll + t) 0 rolls)]).
  { clear. induction rolls as [| r rolls IH]; intros x Hall; cbn [fold_left fold_right].
    - f_equal. f_equal. lia.
    - inversion Hall as [| ? ? Hr Hrs]; subst.
      rewrite rollChange_signed, Hr. cbn [fst snd add_to].
      change (String.eqb "health" "health") with true. cbn iota.
      rewrite IH by assumption. f_equal. f_equal. lia. }
  inversion Hall as [| ? ? Hr Hrs]; subst.
  cbn [fold_left]. rewrite rollChange_signed, Hr. cbn [fst snd add_to].
  rewrite H by assumption. cbn [fold_right]. f_equal. f_equal. lia.
Qed.

Lemma update_lookup (r : gmap string Resource) (updates : gmap string Z) (name : string) :
  update r updates !! name =
    (fun res => {| value := default (value res) (updates !! resource_path name);
                   max := max res |}) <$> r !! name.
Proof.
  unfold update. rewrite map_lookup_imap. destruct (r !! name); reflexivity.
Qed.

(** Damage that exceeds the health left brings health to 0 and carries the
    excess over to wounds, one wound for each point, up to the maximum of
    the wounds; the outcome reports the target as newly incapacitated
    exactly when the wounds stay below that maximum, and never as newly
    broken. *)
Theorem dealDamage_beyond_health (r : gmap string Resource) (rolls : list AttackRoll)
    (h w : Resource) (b : bool) :
  Forall (fun roll => rollResource roll = "health"%string) rolls ->
  r !! "health"%string = Some h -> r !! "wounds"%string = Some w ->
  isBroken r = Some b ->
  0 < value h -> 0 <= max h ->
  let d := damageSum rolls in
  let wounds := JS.clamped (value w + (d - value h)) 0 (max w) in
  value h < d ->
  exists o r',
    dealDamage r rolls false = Some (o, r') /\
    r' !! "health"%string = Some {| value := 0; max := max h |} /\
    r' !! "wounds"%string = Some {| value := wounds; max := max w |} /\
    out_incapacitated o = (wounds <? max w) /\
    out_broken o = false.
Proof.
  intros Hall Hh Hw Hb Hpos Hmax d wounds Hd.
  destruct rolls as [| roll rolls].
  { subst d. simpl in Hd. lia. }
  set (U := <[ resource_path "health" := 0 ]>
              (<[ resource_path "wounds" := wounds ]> (∅ : gmap string Z))).
  assert (Hinc : isIncapacitated r = Some false).
  { unfold isIncapacitated. rewrite Hh. cbn [mbind option_bind].
    destruct (value h =? 0) eqn:E0; [lia | reflexivity]. }
  assert (Halt : alterResources r [("health"%string, - d)] ∅ = Some U).
  { cbn [alterResources]. unfold alterResource. rewrite Hh. cbn [mbind option_bind].
    change (String.eqb "health" "health") with true.
    change (String.eqb "health" "morale") with false.
    cbn [andb].
    destruct (Z.min (value h + - d) 0 =? 0) eqn:Eo; [lia |].
    cbn [negb]. rewrite Hw. cbn [mbind option_bind]. subst U wounds.
    f_equal. f_equal.
    - unfold JS.clamped. lia.
    - f_equal. f_equal. lia. }
  assert (Hh' : update r U !! "health"%string = Some {| value := 0; max := max h |}).
  { rewrite update_lookup, Hh. subst U. rewrite lookup_insert_eq. reflexivity. }
  assert (Hw' : update r U !! "wounds"%string = Some {| value := wounds; max := max w |}).
  { rewrite update_lookup, Hw. subst U.
    rewrite lookup_insert_ne by (intros E; apply resource_path_inj in E; discriminate).
    rewrite lookup_insert_eq. reflexivity. }
  assert (Hother : forall n, n <> "health"%string -> n <> "wounds"%string ->
                             update r U !! n = r !! n).
  { intros n H1 H2. rewrite update_lookup. subst U.
    rewrite !lookup_insert_ne
      by (intros E; apply resource_path_inj in E; congruence).
    rewrite lookup_empty. destruct (r !! n) as [[v m] |]; reflexivity. }
  assert (Hb' : isBroken (update r U) = Some b).
  { unfold isBroken in *. rewrite !Hother by discriminate. exact Hb. }
  assert (Hinc' : isIncapacitated (update r U) = Some (wounds <? max w)).
  { unfold isIncapacitated. rewrite Hh'. cbn [mbind option_bind value].
    change (0 =? 0) with true. cbn iota. rewrite Hw'. reflexivity. }
  eexists _, (update r U). split; [| split; [exact Hh' | split; [exact Hw' |]]].
  - unfold dealDamage. rewrite (damageResources_health _ _ Hall). fold d.
    rewrite Hinc, Hb. cbn [mbind option_bind]. rewrite Halt. cbn [mbind option_bind].
    rewrite Hinc', Hb'. cbn [mbind option_bind]. reflexivity.
  - cbn [out_incapacitated out_broken negb]. split.
    + apply andb_true_r.
    + apply andb_negb_r.
Qed.

Lemma dealDamage_beyond_health_witness :
  exists o r',
    dealDamage frail [hit12] false = Some (o, r') /\
    r' !! "health"%string = Some {| value := 0; max := 20 |} /\
    r' !! "wounds"%string = Some {| value := 4; max := 6 |} /\
    out_incapacitated o = true /\
    out_broken o = false.
Proof.
  apply (dealDamage_beyond_health frail [hit12] (Build_Resource 10 20)
           (Build_Resource 2 6) false).
  - repeat constructor.
  - reflexivity.
  - reflexivity.
  - reflexivity.
  - simpl. lia.
  - simpl. lia.
  - vm_compute. reflexivity.
Defined.




End DamageFacts.

(** *** Token dispositions *)

Section DispositionFacts.
Import Disposition.

(** Enmity between dispositions is mutual and only ever runs between a
    hostile token and a neutral or friendly one; nobody is its own enemy,
    no enemy is an ally, and a secret token has neither. *)
Theorem getDispositions_symmetric (a b : TOKEN_DISPOSITIONS) :
  isEnemy a b = isEnemy b a /\
  isAlly a b = isAlly b a /\
  (isEnemy a b = true -> isAlly a b = false) /\
  isEnemy a a = false /\
  (isEnemy a b = true <-> (a = HOSTILE /\ (b = NEUTRAL \/ b = FRIENDLY)) \/
                          (b = HOSTILE /\ (a = NEUTRAL \/ a = FRIENDLY))).
Proof.
  destruct a, b; vm_compute; intuition congruence.
Qed.

End DispositionFacts.

(** *** The prepared weapon slot *)

Section WeaponSlotFacts.
Import Weapon WeaponPrep.

(** Preparation always ends with a slot the weapon may occupy: an allowed
    slot is kept, any other is replaced by the first allowed one, which is
    the two-hand slot for a two-handed category and otherwise EITHER or
    MAINHAND; preparing again changes nothing. *)
Theorem prepareSlot_allowed (w : CrucibleWeapon) (slot : WEAPON_SLOTS) :
  exists s,
    prepareSlot w slot = Some s /\
    s ∈ getAllowedEquipmentSlots w /\
    (slot ∈ getAllowedEquipmentSlots w -> s = slot) /\
    prepareSlot w s = Some s /\
    (hands (category w) = 2 -> s = TWOHAND) /\
    (slot ∉ getAllowedEquipmentSlots w -> hands (category w) <> 2 ->
     s = if off (category w) then EITHER else MAINHAND).
Proof.
  assert (Hhead : exists x,
            head (getAllowedEquipmentSlots w) = Some x /\
            x ∈ getAllowedEquipmentSlots w /\
            (hands (category w) = 2 -> getAllowedEquipmentSlots w = [TWOHAND]) /\
            (hands (category w) <> 2 ->
             x = if off (category w) then EITHER else MAINHAND)).
  { unfold getAllowedEquipmentSlots.
    destruct (hands (category w) =? 2) eqn:Eh.
    - apply Z.eqb_eq in Eh. exists TWOHAND.
      split; [reflexivity |]. split; [left |]. split; [reflexivity | contradiction].
    - apply Z.eqb_neq in Eh.
      destruct (off (category w)), (bool_decide ("versatile"%string ∈ properties w));
        eexists; (split; [reflexivity |]); (split; [left |]);
        (split; [contradiction | reflexivity]). }
  destruct Hhead as [x [Hx [Hin [H2 Hoff]]]].
  unfold prepareSlot. cbv zeta. case_bool_decide as Hslot.
  - exists slot. split; [reflexivity |]. split; [exact Hslot |].
    split; [reflexivity |].
    split; [rewrite bool_decide_eq_true_2 by exact Hslot; reflexivity |].
    split; [| contradiction].
    intros Eh. rewrite (H2 Eh) in Hslot. apply list_elem_of_singleton in Hslot. exact Hslot.
  - exists x. split; [exact Hx |]. split; [exact Hin |].
    split; [contradiction |].
    split; [rewrite bool_decide_eq_true_2 by exact Hin; reflexivity |].
    split; [| intros _; exact Hoff].
    intros Eh. rewrite (H2 Eh) in Hx. injection Hx as <-. reflexivity.
Qed.

End WeaponSlotFacts.

(** *** Equipping armor *)

Section EquipmentFacts.
Import Actor Equipment.

Lemma set_equipped_ids (e : bool) (itemId : option string) (items : list CrucibleItem) :
  map item_id (set_equipped e itemId items) = map item_id items.
Proof.
  unfold set_equipped. induction items as [| i items IH]; [reflexivity |].
  cbn [map]. rewrite IH. destruct (has_id itemId i); reflexivity.
Qed.

Lemma set_equipped_truthy (e : bool) (itemId : option string) (items : list CrucibleItem) :
  Forall (fun i => truthy (item_id i) = true) items ->
  Forall (fun i => truthy (item_id i) = true) (set_equipped e itemId items).
Proof.
  unfold set_equipped. induction 1 as [| i items Hi _ IH]; cbn [map]; constructor;
    [destruct (has_id itemId i); exact Hi | exact IH].
Qed.

Lemma item_update_stored (inv : Inventory) (item : CrucibleItem) (e : bool) :
  stored inv -> stored (item_update inv item e).
Proof.
  intros [Hnd Hall]. unfold stored, item_update. cbn [armor others]. split.
  - rewrite map_app, !set_equipped_ids, <- map_app. exact Hnd.
  - apply Forall_app in Hall as [Ha Ho]. apply Forall_app.
    split; apply set_equipped_truthy; assumption.
Qed.

Lemma unequip_length (itemId : option string) (items : list CrucibleItem) :
  (length (List.filter equipped (set_equipped false itemId items))
   <= length (List.filter equipped items))%nat.
Proof.
  unfold set_equipped. induction items as [| i items IH]; [reflexivity |].
  cbn [map List.filter]. destruct (has_id itemId i); cbn [equipped];
    destruct (equipped i); cbn [length]; lia.
Qed.

Lemma set_equipped_absent (e : bool) (itemId : option string) (items : list CrucibleItem) :
  itemId ∉ map item_id items -> set_equipped e itemId items = items.
Proof.
  unfold set_equipped. induction items as [| i items IH]; intros Hnot; [reflexivity |].
  cbn [map] in *. rewrite not_elem_of_cons in Hnot. destruct Hnot as [Hne Hnot].
  unfold has_id at 1. rewrite bool_decide_eq_false_2 by congruence.
  rewrite IH by exact Hnot. reflexivity.
Qed.

Lemma equip_length (itemId : option string) (items : list CrucibleItem) :
  List.filter equipped items = [] -> NoDup (map item_id items) ->
  (length (List.filter equipped (set_equipped true itemId items)) <= 1)%nat.
Proof.
  induction items as [| i items IH]; intros Hnone Hnd; [cbn; lia |].
  cbn [List.filter] in Hnone. destruct (equipped i) eqn:Ei; [discriminate |].
  cbn [map] in Hnd. apply NoDup_cons in Hnd as [Hnot Hnd].
  unfold set_equipped. cbn [map]. fold (set_equipped true itemId items).
  unfold has_id at 1. case_bool_decide as Hid.
  - subst itemId. rewrite set_equipped_absent by exact Hnot.
    cbn [List.filter equipped]. rewrite Hnone. cbn. lia.
  - cbn [List.filter]. rewrite Ei. apply IH; assumption.
Qed.

(** [equipArmor] keeps the armor slot single: on an inventory of stored
    items with at most one armor equipped, whatever update it makes leaves
    at most one armor equipped, so that the armor preparation that follows
    has nothing to warn about. *)
Theorem equipArmor_one_armor (UNARMORED_DATA : CrucibleItem) (name : string)
    (inv inv' : Inventory) (itemId : option string) (e : bool) :
  item_id UNARMORED_DATA = None ->
  stored inv -> one_armor inv ->
  equipArmor UNARMORED_DATA name inv itemId e = Some (Updated inv') ->
  stored inv' /\ one_armor inv' /\
  fst (_prepareArmor UNARMORED_DATA name (armor inv')) = [].
Proof.
  intros Hun Hst Hone Heq.
  assert (Hgoal : stored inv' /\ one_armor inv').
  { unfold equipArmor in Heq. unfold one_armor in Hone.
    unfold _prepareArmor in Heq.
    destruct (1 <? Z.of_nat (length (List.filter equipped (armor inv)))) eqn:E1;
      [apply Z.ltb_lt in E1; lia |].
    cbn [snd] in Heq.
    destruct (from_option _ false (items_get inv itemId)).
    - destruct e; [discriminate |]. injection Heq as <-.
      split; [apply item_update_stored, Hst |].
      unfold one_armor, item_update. cbn [armor].
      etransitivity; [apply unequip_length | exact Hone].
    - destruct (List.filter equipped (armor inv)) as [| a l] eqn:Ef; cbn [head default] in Heq.
      + unfold _getUnarmoredArmor in Heq. rewrite Hun in Heq. cbn [truthy] in Heq.
        destruct (items_get inv itemId) as [item |]; [| discriminate].
        cbn [mbind option_bind] in Heq. injection Heq as <-.
        split; [apply item_update_stored, Hst |].
        unfold one_armor, item_update. cbn [armor].
        apply equip_length; [exact Ef |].
        destruct Hst as [Hnd _]. rewrite map_app in Hnd.
        apply NoDup_app in Hnd as [Hnd _]. exact Hnd.
      + assert (Ha : truthy (item_id a) = true).
        { destruct Hst as [_ Hall]. rewrite Forall_forall in Hall. apply Hall.
          apply elem_of_app. left.
          assert (Hin : In a (List.filter equipped (armor inv)))
            by (rewrite Ef; left; reflexivity).
          apply filter_In in Hin as [Hin _]. apply list_elem_of_In. exact Hin. }
        change (id a) with a in Heq. rewrite Ha in Heq.
        destruct (items_get inv itemId); discriminate. }
  destruct Hgoal as [Hs Ho]. split; [exact Hs |]. split; [exact Ho |].
  unfold _prepareArmor. unfold one_armor in Ho.
  destruct (1 <? Z.of_nat (length (List.filter equipped (armor inv')))) eqn:E1;
    [apply Z.ltb_lt in E1; lia | reflexivity].
Qed.

Lemma equipArmor_one_armor_witness :
  stored (item_update wardrobe packed_leather true) /\
  one_armor (item_update wardrobe packed_leather true) /\
  fst (_prepareArmor unarmored "Hero"
         (armor (item_update wardrobe packed_leather true))) = [].
Proof.
  apply (equipArmor_one_armor unarmored "Hero" wardrobe _
           (Some "leatherarmor0000"%string) true).
  - reflexivity.
  - split.
    + apply (bool_decide_unpack _). vm_compute. exact I.
    + repeat constructor.
  - unfold one_armor. simpl. lia.
  - reflexivity.
Defined.

End EquipmentFacts.
